(** * k3-window-plugin: parametric window geometry and sash kinematics

    A shallow embedding of the geometry engine of the window plugin
    ([src/profileSystem.ts], [src/Window.tsx], [src/constants.ts]) and the
    properties of its frame rings, depth layout, sash kinematics and
    mullion rule; then of the opening indicators
    ([src/components/OpeningVisualization.tsx]) and of the configuration
    model ([utils.ts], [geometryBuilders.ts], [useWindowContext.tsx],
    [useWindowGeometry.tsx]): limits, pane widths, colours, the reducer
    and the computed geometry.

    JavaScript numbers are modelled as real numbers ([R]): rounding is
    abstracted, so an equality proved here holds in the program up to
    floating-point error.  Results of [parseInt] are modelled as
    [option Z], [None] being [NaN].  Arrays that the program indexes past
    their end are modelled as lists of optional cells, a missing cell
    being [undefined]. *)

From stdpp Require Import base list strings gmap.
From Stdlib Require Import Reals Lra Lia ZArith.
From Stdlib Require Import Ascii.
From Stdlib Require HexadecimalString.

Open Scope R_scope.

(* ===================================================================== *)
(** * JavaScript values                                                  *)
(* ===================================================================== *)

Module JS.

(** [x || def] on numbers: the default replaces a falsy number (zero). *)
Definition or_num (x def : R) : R :=
  if Req_dec_T x 0 then def else x.

(** [x || def] on an optional number ([undefined] is falsy too). *)
Definition or_opt_num (x : option R) (def : R) : R :=
  match x with
  | Some v => or_num v def
  | None => def
  end.

(** The result of [parseInt]: an integer, or [NaN]. *)
Definition int := option Z.

(** [n - 1] on a [parseInt] result; [NaN - 1] is [NaN]. *)
Definition pred (n : int) : int := (λ z, z - 1)%Z <$> n.

(** [n === k] for an integer literal [k]. *)
Definition eqb (n : int) (k : Z) : bool :=
  match n with
  | Some z => (z =? k)%Z
  | None => false
  end.

(** [arr[i]] for a dense array and a numeric index: [undefined] when the
    index is [NaN], negative or past the end. *)
Definition index {A} (arr : list A) (i : int) : option A :=
  match i with
  | Some z => if (z <? 0)%Z then None else arr !! Z.to_nat z
  | None => None
  end.

(** An array with holes: a cell is [None] when it was never written. *)
Abbreviation array A := (list (option A)).

(** [arr[i]], [undefined] being [None]. *)
Definition get {A} (arr : array A) (i : nat) : option A :=
  mjoin (arr !! i).

(** [const a = [...arr]; a[i] = v]: the array grows when [i] is past its
    end, the cells in between staying holes. *)
Definition set {A} (i : nat) (v : A) (arr : array A) : array A :=
  if (i <? length arr)%nat
  then <[i := Some v]> arr
  else arr ++ replicate (i - length arr) None ++ [Some v].

(** [[...arr, v]] *)
Definition push {A} (v : A) (arr : array A) : array A :=
  arr ++ [Some v].

(** [arr.map((x, i) => f(x, i))]: holes are skipped and stay holes. *)
Definition map {A B} (f : A → nat → B) (arr : array A) : array B :=
  imap (λ i cell, (λ x, f x i) <$> cell) arr.

End JS.

(* ===================================================================== *)
(** * types.ts and constants.ts                                          *)
(* ===================================================================== *)

Inductive OpeningType :=
  | fixed
  | kipp
  | dreh_links
  | dreh_rechts
  | dreh_kipp_links
  | dreh_kipp_rechts.

#[global] Instance OpeningType_eq_dec : EqDecision OpeningType.
Proof. solve_decision. Defined.

(** The mode of a hybrid sash: ['dreh' | 'kipp']. *)
Inductive Mode := dreh | kipp_mode.

#[global] Instance Mode_eq_dec : EqDecision Mode.
Proof. solve_decision. Defined.

Record OpeningConfig := { type : OpeningType }.

Record ProfileConfig := {
  profileKey : string;
  width : R;
  depth : option R;
  glassRebateDepth : option R;
  sightline : option R
}.

Definition PROFILE_LIBRARY : gmap string ProfileConfig :=
  {[ "minimal" :=
       {| profileKey := "minimal"; width := 40; depth := Some 50;
          glassRebateDepth := Some 15; sightline := Some 25 |};
     "modern-slim" :=
       {| profileKey := "modern-slim"; width := 60; depth := Some 70;
          glassRebateDepth := Some 18; sightline := Some 35 |};
     "modern-wide" :=
       {| profileKey := "modern-wide"; width := 80; depth := Some 82;
          glassRebateDepth := Some 22; sightline := Some 45 |};
     "traditional" :=
       {| profileKey := "traditional"; width := 100; depth := Some 90;
          glassRebateDepth := Some 25; sightline := Some 55 |} ]}.

(* ===================================================================== *)
(** * The part of three.js the program relies on                         *)
(* ===================================================================== *)

Module THREE.

Record Vector3 := vec3 { vx : R; vy : R; vz : R }.

Definition add (p q : Vector3) : Vector3 :=
  vec3 (vx p + vx q) (vy p + vy q) (vz p + vz q).


(** A [Shape] traced by [moveTo] and [lineTo]: its points in order. *)
Definition Shape := list (R * R).

(** [new ExtrudeGeometry(shape, { depth, bevelEnabled: false })]: the
    shape swept along local +Z from 0 to [depth]. *)
Record ExtrudeGeometry := {
  eg_shape : Shape;
  eg_depth : R
}.

(** [new BoxGeometry(w, h, d)] centred at the origin, then
    [translate(0, 0, z)]. *)
Record BoxGeometry := {
  box_width : R;
  box_height : R;
  box_depth : R;
  box_z : R
}.

(** [Matrix4.makeRotationFromEuler] for the default order 'XYZ', applied
    to a vector. *)
Definition applyEuler (e p : Vector3) : Vector3 :=
  let a := cos (vx e) in let b := sin (vx e) in
  let c := cos (vy e) in let d := sin (vy e) in
  let e' := cos (vz e) in let f := sin (vz e) in
  vec3 (c * e' * vx p - c * f * vy p + d * vz p)
       ((a * f + b * e' * d) * vx p + (a * e' - b * f * d) * vy p
        - b * c * vz p)
       ((b * f - a * e' * d) * vx p + (b * e' + a * f * d) * vy p
        + a * c * vz p).

End THREE.

(* ===================================================================== *)
(** * profileSystem.ts                                                   *)
(* ===================================================================== *)

Module ProfileSystem.
Import THREE.

Definition mm : R := 0.001.

(** L-shaped cross-section of the outer frame, with its rebate. *)
Definition createLShapeProfileCrossSection (totalWidth totalDepth : R)
  : Shape :=
  let w := totalWidth * mm in
  let d := totalDepth * mm in
  let rebateWidth := w * 0.3 in
  let rebateDepth := d * 0.3 in
  [ (0, 0); (w, 0); (w, d - rebateDepth);
    (w - rebateWidth, d - rebateDepth); (w - rebateWidth, d);
    (0, d); (0, 0) ].

(** Stepped cross-section of a sash, front face narrower than the back. *)
Definition createSteppedSashProfileCrossSection (totalWidth totalDepth : R)
  : Shape :=
  let sashWidth := totalWidth * mm * 0.7 in
  let d := totalDepth * mm in
  let frontFaceWidth := sashWidth * 0.85 in
  let backDepth := d * 0.4 in
  let widthDiff := (sashWidth - frontFaceWidth) / 2 in
  [ (0, 0); (sashWidth, 0); (sashWidth, backDepth);
    (sashWidth - widthDiff, backDepth); (sashWidth - widthDiff, d);
    (widthDiff, d); (widthDiff, backDepth); (0, backDepth); (0, 0) ].

Definition SASH_CLEARANCE : R := 0.003.

(** The four segments of the outer frame, in the order bottom, top,
    left, right, each extruded along +Z. *)
Definition createFrameFromProfile
  (outerWidth outerHeight profileWidth profileDepth : R)
  : list ExtrudeGeometry :=
  let w := outerWidth * mm in
  let h := outerHeight * mm in
  let pw := profileWidth * mm in
  let lProfile := createLShapeProfileCrossSection profileWidth profileDepth in
  let bottomGeo := {| eg_shape := lProfile; eg_depth := w - 2 * pw |} in
  let topGeo := {| eg_shape := lProfile; eg_depth := w - 2 * pw |} in
  let leftGeo := {| eg_shape := lProfile; eg_depth := h |} in
  let rightGeo := {| eg_shape := lProfile; eg_depth := h |} in
  [ bottomGeo; topGeo; leftGeo; rightGeo ].

(** The four segments of one sash frame, same order. *)
Definition createSashFrame
  (outerWidth outerHeight : R) (profileConfig : ProfileConfig)
  : list ExtrudeGeometry :=
  let w := outerWidth * mm in
  let h := outerHeight * mm in
  let outerFrameWidth := JS.or_num (width profileConfig) 60 in
  let depth := JS.or_opt_num (depth profileConfig) 70 in
  let sashProfileWidth := outerFrameWidth * mm * 0.7 in
  let clearance := SASH_CLEARANCE in
  let actualWidth := w - clearance in
  let actualHeight := h - clearance in
  let steppedProfile :=
    createSteppedSashProfileCrossSection outerFrameWidth (depth * 0.9) in
  let bottomGeo :=
    {| eg_shape := steppedProfile;
       eg_depth := actualWidth - 2 * sashProfileWidth |} in
  let topGeo :=
    {| eg_shape := steppedProfile;
       eg_depth := actualWidth - 2 * sashProfileWidth |} in
  let leftGeo := {| eg_shape := steppedProfile; eg_depth := actualHeight |} in
  let rightGeo := {| eg_shape := steppedProfile; eg_depth := actualHeight |} in
  [ bottomGeo; topGeo; leftGeo; rightGeo ].

Record CompleteFrame := {
  outerFrameSegments : list ExtrudeGeometry;
  sashFrameSegments : list (list ExtrudeGeometry)
}.

(** The outer frame and one sash frame per pane.  The loop
    [for (i = 0; i < paneCount; i++)] runs [Z.to_nat paneCount] times. *)
Definition createCompleteFrame
  (widthMm heightMm : R) (paneCount : Z) (profileConfig : ProfileConfig)
  : CompleteFrame :=
  let outerProfileWidth := JS.or_num (width profileConfig) 60 in
  let outerProfileDepth := JS.or_opt_num (depth profileConfig) 70 in
  let w := widthMm * mm in
  let h := heightMm * mm in
  let fw := outerProfileWidth * mm in
  let innerWidth := w - fw * 2 in
  let innerHeight := h - fw * 2 in
  let outerFrameSegments :=
    createFrameFromProfile widthMm heightMm
                           outerProfileWidth outerProfileDepth in
  let sashFrameSegments :=
    if (paneCount =? 1)%Z
    then [ createSashFrame (innerWidth / mm) (innerHeight / mm)
                           profileConfig ]
    else
      let sashWidth := innerWidth / IZR paneCount in
      (λ _ : nat, createSashFrame (sashWidth / mm) (innerHeight / mm)
                                  profileConfig)
        <$> seq 0 (Z.to_nat paneCount) in
  {| outerFrameSegments := outerFrameSegments;
     sashFrameSegments := sashFrameSegments |}.

(** Z position of the glass centre. *)
Definition calculateGlassZPosition
  (profileConfig : ProfileConfig) (glassThicknessMm : R) : R :=
  let frameDepth := JS.or_opt_num (depth profileConfig) 70 * mm in
  let thickness := glassThicknessMm * mm in
  let sashZOffset := - frameDepth * 0.15 in
  let sashDepth := frameDepth * 0.6 in
  let glassZ := sashZOffset - sashDepth * 0.5 + thickness / 2 in
  glassZ.

(** Z position of the front face of the glass. *)
Definition calculateGlassFrontZPosition
  (profileConfig : ProfileConfig) (glassThicknessMm : R) : R :=
  let thickness := glassThicknessMm * mm in
  let glassZ := calculateGlassZPosition profileConfig glassThicknessMm in
  glassZ + thickness / 2.

(** [openingConfigs?.[i]?.type === "fixed"] *)
Definition isFixedAt (openingConfigs : option (list OpeningConfig))
  (i : nat) : bool :=
  match openingConfigs ≫= (λ l, l !! i) with
  | Some c => bool_decide (type c = fixed)
  | None => false
  end.

(** One glass pane per sash. *)
Definition createGlassPanes
  (widthMm heightMm : R) (paneCount : Z) (profileConfig : ProfileConfig)
  (glassThicknessMm : R) (openingConfigs : option (list OpeningConfig))
  : list BoxGeometry :=
  let w := widthMm * mm in
  let h := heightMm * mm in
  let outerFw := JS.or_num (width profileConfig) 60 * mm in
  let thickness := glassThicknessMm * mm in
  let sashFw := outerFw * 0.7 in
  let innerWidth := w - outerFw * 2 in
  let innerHeight := h - outerFw * 2 in
  let glassZ := calculateGlassZPosition profileConfig glassThicknessMm in
  if (paneCount =? 1)%Z
  then
    let isFixed := isFixedAt openingConfigs 0 in
    let glassWidth :=
      if isFixed then innerWidth else innerWidth - sashFw * 2 in
    let glassHeight :=
      if isFixed then innerHeight else innerHeight - sashFw * 2 in
    [ {| box_width := glassWidth; box_height := glassHeight;
         box_depth := thickness; box_z := glassZ |} ]
  else
    let sashWidth := innerWidth / IZR paneCount in
    (λ i : nat,
       let isFixed := isFixedAt openingConfigs i in
       let glassWidth :=
         if isFixed then sashWidth else sashWidth - sashFw * 2 in
       let glassHeight :=
         if isFixed then innerHeight else innerHeight - sashFw * 2 in
       {| box_width := glassWidth; box_height := glassHeight;
          box_depth := thickness; box_z := glassZ |})
      <$> seq 0 (Z.to_nat paneCount).

(** T-shaped cross-section of a mullion, centred on [x = 0]. *)
Definition createMullionProfile (config : ProfileConfig) : Shape :=
  let width := JS.or_num (width config) 60 * mm in
  let depth := JS.or_opt_num (depth config) 70 * mm in
  let stemWidth := width * 0.4 in
  let stemDepth := depth * 0.3 in
  let headDepth := depth in
  let halfWidth := width / 2 in
  let halfStem := stemWidth / 2 in
  [ (- halfStem, 0); (halfStem, 0); (halfStem, stemDepth);
    (halfWidth, stemDepth); (halfWidth, headDepth);
    (- halfWidth, headDepth); (- halfWidth, stemDepth);
    (- halfStem, stemDepth); (- halfStem, 0) ].

(** Cross-section of a sash with a glass rebate on either side of the
    front face. *)
Definition createSashProfile (config : ProfileConfig) : Shape :=
  let outerFrameWidth := JS.or_num (width config) 60 * mm in
  let depth := JS.or_opt_num (depth config) 70 * mm in
  let sashTotalWidth := outerFrameWidth * 0.7 in
  let frontFaceWidth := sashTotalWidth * 0.85 in
  let overlapDepth := depth * 0.2 in
  let glassRebateWidth := sashTotalWidth * 0.3 in
  let glassRebateDepth := depth * 0.25 in
  let frontFaceStart := (sashTotalWidth - frontFaceWidth) / 2 in
  [ (0, 0); (sashTotalWidth, 0); (sashTotalWidth, depth - overlapDepth);
    (sashTotalWidth - frontFaceStart, depth - overlapDepth);
    (sashTotalWidth - frontFaceStart, depth);
    (sashTotalWidth - frontFaceStart - glassRebateWidth, depth);
    (sashTotalWidth - frontFaceStart - glassRebateWidth,
     depth - glassRebateDepth);
    (frontFaceStart + glassRebateWidth, depth - glassRebateDepth);
    (frontFaceStart + glassRebateWidth, depth);
    (frontFaceStart, depth);
    (frontFaceStart, depth - overlapDepth);
    (0, depth - overlapDepth); (0, 0) ].

(** Rectangular cross-section. *)
Definition createSimpleRectProfile (width depth : R) : Shape :=
  let w := width * mm in
  let d := depth * mm in
  [ (0, 0); (w, 0); (w, d); (0, d); (0, 0) ].

(** The outline of the whole window, centred on the origin. *)
Definition createOuterFramePath (width height : R) : Shape :=
  let w := width * mm in
  let h := height * mm in
  [ (- w / 2, - h / 2); (w / 2, - h / 2); (w / 2, h / 2);
    (- w / 2, h / 2); (- w / 2, - h / 2) ].

(** The vertical lines of the mullions of a window of [paneCount] panes,
    each a segment from its lower to its upper end. *)
Definition generateMullionPaths
  (width height : R) (paneCount : Z) (frameWidth : R)
  : list (Vector3 * Vector3) :=
  if (paneCount <=? 1)%Z then []
  else
    let w := width * mm in
    let h := height * mm in
    let fw := frameWidth * mm in
    let innerHeight := h - fw * 2 in
    let mullionCount := (paneCount - 1)%Z in
    let paneWidth := w / IZR paneCount in
    (λ i : nat,
       let x := - w / 2 + INR i * paneWidth in
       (vec3 x (- innerHeight / 2) 0, vec3 x (innerHeight / 2) 0))
      <$> seq 1 (Z.to_nat mullionCount).

(** The mullion (Pfosten): the T profile extruded along +Z over the inner
    height. *)
Definition createPfosten (heightMm : R) (profileConfig : ProfileConfig)
  : ExtrudeGeometry :=
  let height := heightMm * mm in
  let mullionProfile := createMullionProfile profileConfig in
  {| eg_shape := mullionProfile; eg_depth := height |}.

End ProfileSystem.

(* ===================================================================== *)
(** * Window.tsx                                                         *)
(* ===================================================================== *)

Module Window.
Import THREE ProfileSystem.

(** ** Placement of the outer frame segments *)

Inductive Segment := bottom | top | left | right.

Record SegmentTransform := {
  groupPosition : Vector3;
  meshRotation : Vector3;
  meshPosition : Vector3;
  meshScale : option Vector3
}.

Definition getFrameSegmentTransform
  (segment : Segment) (width height depth profileWidth : R)
  : SegmentTransform :=
  let w := width in
  let h := height in
  let d := depth in
  let pw := profileWidth in
  match segment with
  | bottom =>
      {| groupPosition := vec3 (- w / 2 + pw) (- h / 2) (- d);
         meshRotation := vec3 (- PI / 2) (PI / 2) PI;
         meshPosition := vec3 0 0 (d / 2);
         meshScale := None |}
  | top =>
      {| groupPosition := vec3 (- w / 2 + pw) (h / 2) (- d);
         meshRotation := vec3 (- PI / 2) (- PI / 2) PI;
         meshPosition := vec3 (w - 2 * pw) 0 (d / 2);
         meshScale := None |}
  | left =>
      {| groupPosition := vec3 (- w / 2) (- h / 2) (- d);
         meshRotation := vec3 (PI / 2) 0 0;
         meshPosition := vec3 0 h (d / 2);
         meshScale := Some (vec3 1 1 1) |}
  | right =>
      {| groupPosition := vec3 (w / 2) (- h / 2 - h) (- d);
         meshRotation := vec3 (- PI / 2) 0 PI;
         meshPosition := vec3 0 h (d / 2);
         meshScale := Some (vec3 1 1 1) |}
  end.

(** Where a local vertex of the mesh ends up: the scene graph is
    [<group position={groupPosition}>
       <mesh rotation={meshRotation} position={meshPosition}
             scale={meshScale || [1, 1, 1]}/></group>],
    so the vertex is scaled, rotated, then translated twice. *)
Definition placeVertex (t : SegmentTransform) (p : Vector3) : Vector3 :=
  let s := default (vec3 1 1 1) (meshScale t) in
  let scaled := vec3 (vx s * vx p) (vy s * vy p) (vz s * vz p) in
  add (groupPosition t)
      (add (meshPosition t) (applyEuler (meshRotation t) scaled)).

Record PlacedSegment := {
  ps_segment : Segment;
  ps_geometry : ExtrudeGeometry;
  ps_transform : SegmentTransform
}.

(** The [outer-frame] group: segment number [idx] of the frame data with
    the transform of its edge.  [profileConfig.depth * 0.001] is [NaN]
    when the depth is undefined; that case is [None] here. *)
Definition renderOuterFrame
  (widthCm heightCm : R) (profileConfig : ProfileConfig)
  (frameData : CompleteFrame) : option (list PlacedSegment) :=
  d ← depth profileConfig;
  mapM (λ '(idx, segment),
          geometry ← outerFrameSegments frameData !! idx;
          Some {| ps_segment := segment;
                  ps_geometry := geometry;
                  ps_transform :=
                    getFrameSegmentTransform
                      segment
                      (widthCm * 10 * 0.001)
                      (heightCm * 10 * 0.001)
                      (d * 0.001)
                      (width profileConfig * 0.001) |})
       (imap pair [bottom; top; left; right]).

(** World position of the vertex of a placed segment that lies at the
    point [(x, y)] of the cross-section, [z] along the extrusion. *)
Definition worldVertex (ps : PlacedSegment) (x y z : R) : Vector3 :=
  placeVertex (ps_transform ps) (vec3 x y z).



(** ** Configuration derived from the props *)

Definition profileKeys : list string :=
  ["minimal"; "modern-slim"; "modern-wide"; "traditional"].

(** [profileKeys[profileChoice - 1] || "modern-slim"]; no key is the
    empty string, so only [undefined] takes the default. *)
Definition profileKeyOf (profileChoice : JS.int) : string :=
  default "modern-slim" (JS.index profileKeys (JS.pred profileChoice)).

(** [PROFILE_LIBRARY[profileKey]] *)
Definition profileConfigOf (profileChoice : JS.int) : option ProfileConfig :=
  PROFILE_LIBRARY !! profileKeyOf profileChoice.

Definition openingTypes : list OpeningType :=
  [fixed; kipp; dreh_links; dreh_rechts; dreh_kipp_links; dreh_kipp_rechts].

(** [openingTypes[sashChoices[i] - 1] || "fixed"] for each sash;
    [Array.from({ length: windowType })] has [Z.to_nat windowType]
    entries. *)
Definition openingConfigs
  (windowType : Z)
  (sash1OpeningChoice sash2OpeningChoice sash3OpeningChoice : JS.int)
  : list OpeningConfig :=
  let sashChoices :=
    [sash1OpeningChoice; sash2OpeningChoice; sash3OpeningChoice] in
  (λ i : nat,
     {| type := default fixed
                  (JS.index openingTypes
                            (JS.pred (mjoin (sashChoices !! i)))) |})
    <$> seq 0 (Z.to_nat windowType).

(** ** Mullions (Pfosten) *)

(** The body of the loop of [pfostenNeeds] for one boundary. *)
Definition pfostenRequired
  (leftSash rightSash : OpeningConfig) (manualSetting : JS.int) : bool :=
  let leftNeedsRight :=
    bool_decide (type leftSash = fixed)
    || bool_decide (type leftSash = kipp)
    || bool_decide (type leftSash = dreh_rechts)
    || bool_decide (type leftSash = dreh_kipp_links)
    || bool_decide (type leftSash = dreh_kipp_rechts) in
  let rightNeedsLeft :=
    bool_decide (type rightSash = fixed)
    || bool_decide (type rightSash = kipp)
    || bool_decide (type rightSash = dreh_links)
    || bool_decide (type rightSash = dreh_kipp_links)
    || bool_decide (type rightSash = dreh_kipp_rechts) in
  let required := leftNeedsRight || rightNeedsLeft in
  if JS.eqb manualSetting 1 then false
  else if JS.eqb manualSetting 2 then true
  else required.

(** One entry per boundary [i < windowType - 1]; reading [.type] of a
    missing sash throws, which is [None]. *)
Definition pfostenNeeds
  (openingConfigs : list OpeningConfig) (windowType : Z)
  (pfosten1Choice pfosten2Choice : JS.int) : option (list bool) :=
  mapM (λ i : nat,
          leftSash ← openingConfigs !! i;
          rightSash ← openingConfigs !! (i + 1)%nat;
          let manualSetting :=
            if (i =? 0)%nat then pfosten1Choice else pfosten2Choice in
          Some (pfostenRequired leftSash rightSash manualSetting))
       (seq 0 (Z.to_nat (windowType - 1))).

(** ** Sash state and kinematics *)

(** The three [useState] arrays, and the callbacks registered with
    [setTimeout] that have not run yet: the milliseconds left and the
    sash each one reopens. *)
Record State := {
  sashOpenStates : JS.array bool;
  sashRotations : JS.array R;
  sashModes : JS.array Mode;
  timeouts : list (nat * nat)
}.

(** The render pass appends a closed sash in mode dreh for every index
    the rotation array of that render does not reach. *)
Definition initSashStates (sashCount : nat) (st : State) : State :=
  let len := length (sashRotations st) in
  foldl (λ s index,
           if (len <=? index)%nat
           then {| sashOpenStates := JS.push false (sashOpenStates s);
                   sashRotations := JS.push 0 (sashRotations s);
                   sashModes := JS.push dreh (sashModes s);
                   timeouts := timeouts s |}
           else s)
        st (seq 0 sashCount).

(** The target angle of sash [index], the callback of
    [sashOpenStates.map] in [useFrame]. *)
Definition targetRotation
  (openingConfigs : list OpeningConfig) (sashModes : JS.array Mode)
  (isOpen : bool) (index : nat) : R :=
  if negb isOpen then 0
  else
    match openingConfigs !! index with
    | None => 0
    | Some config =>
        let mode := default dreh (JS.get sashModes index) in
        match type config with
        | fixed => 0
        | kipp => PI / 16
        | dreh_links => - PI * 0.6
        | dreh_rechts => PI * 0.6
        | dreh_kipp_links =>
            if decide (mode = kipp_mode) then PI / 16 else - PI * 0.6
        | dreh_kipp_rechts =>
            if decide (mode = kipp_mode) then PI / 16 else PI * 0.6
        end
    end.

(** One step of the smooth animation of one angle. *)
Definition animate (target current delta : R) : R :=
  let diff := target - current in
  if Rlt_dec (Rabs diff) 0.01 then target
  else current + diff * delta * 3.

(** The [useFrame] callback. *)
Definition useFrame
  (openingConfigs : list OpeningConfig) (delta : R) (st : State) : State :=
  if (length (sashRotations st) =? 0)%nat then st
  else
    let targetRotations :=
      JS.map (targetRotation openingConfigs (sashModes st))
             (sashOpenStates st) in
    {| sashOpenStates := sashOpenStates st;
       sashRotations :=
         JS.map (λ current i,
                   let target :=
                     JS.or_opt_num (JS.get targetRotations i) 0 in
                   animate target current delta)
                (sashRotations st);
       sashModes := sashModes st;
       timeouts := timeouts st |}.

(** The open/close handler.  The handler reads the state it runs in. *)
Definition handleSashOpenChange
  (index : nat) (isOpen : bool) (mode : Mode) (st : State) : State :=
  let currentMode := default dreh (JS.get (sashModes st) index) in
  let currentOpen := default false (JS.get (sashOpenStates st) index) in
  if currentOpen && bool_decide (currentMode ≠ mode)
  then
    {| sashRotations := JS.set index 0 (sashRotations st);
       sashModes := JS.set index mode (sashModes st);
       sashOpenStates := JS.set index false (sashOpenStates st);
       timeouts := timeouts st ++ [(50%nat, index)] |}
  else
    {| sashOpenStates := JS.set index isOpen (sashOpenStates st);
       sashModes := JS.set index mode (sashModes st);
       sashRotations := sashRotations st;
       timeouts := timeouts st |}.

(** The callback given to [setTimeout]: the sash is set open. *)
Definition reopen (st : State) (index : nat) : State :=
  {| sashOpenStates := JS.set index true (sashOpenStates st);
     sashRotations := sashRotations st;
     sashModes := sashModes st;
     timeouts := timeouts st |}.

(** [ms] milliseconds of wall-clock time pass: the callbacks that are due
    run in the order they were registered, the others wait on. *)
Definition elapse (ms : nat) (st : State) : State :=
  let due := filter (λ t, (t.1 ≤ ms)%nat) (timeouts st) in
  let waiting := filter (λ t, ¬ (t.1 ≤ ms)%nat) (timeouts st) in
  foldl reopen
        {| sashOpenStates := sashOpenStates st;
           sashRotations := sashRotations st;
           sashModes := sashModes st;
           timeouts := (λ t, ((t.1 - ms)%nat, t.2)) <$> waiting |}
        (due.*2).

Inductive Event :=
  | Toggle (index : nat) (isOpen : bool) (mode : Mode)
  | Frame (delta : R)
  | Elapse (ms : nat).

Definition step (openingConfigs : list OpeningConfig)
  (st : State) (e : Event) : State :=
  match e with
  | Toggle index isOpen mode => handleSashOpenChange index isOpen mode st
  | Frame delta => useFrame openingConfigs delta st
  | Elapse ms => elapse ms st
  end.

Definition run (openingConfigs : list OpeningConfig)
  (events : list Event) (st : State) : State :=
  foldl (step openingConfigs) st events.

(** The angle after [n] frames of [delta] seconds towards a fixed
    target. *)
Fixpoint animateN (n : nat) (target delta current : R) : R :=
  match n with
  | O => current
  | S n' => animateN n' target delta (animate target current delta)
  end.

(** ** What the render pass produces for one sash *)

Record SashRender := {
  sr_glassWidth : R;
  sr_glassHeight : R;
  sr_sashFrame : bool;
  sr_glass : option BoxGeometry;
  sr_toggles : list Mode
}.

(** The body of [frameData.sashFrameSegments.map] as far as the glass,
    the sash frame and the toggle buttons go: [sr_sashFrame] tells
    whether the group [sash-index-frame] is rendered, [sr_toggles] lists
    the modes of the buttons wired to [handleSashOpenChange]. *)
Definition renderSash
  (widthCm heightCm : R) (windowType : Z) (profileConfig : ProfileConfig)
  (openingConfigs : list OpeningConfig) (showOpeningViz : bool)
  (glassGeometries : list BoxGeometry) (index : nat) : SashRender :=
  let innerWidth := widthCm * 10 * mm - width profileConfig * mm * 2 in
  let innerHeight := heightCm * 10 * mm - width profileConfig * mm * 2 in
  let sashWidth :=
    if (windowType =? 1)%Z then innerWidth
    else innerWidth / IZR windowType in
  let openingType := default fixed (type <$> openingConfigs !! index) in
  let isFixed := bool_decide (openingType = fixed) in
  let sashProfileWidth := width profileConfig * mm * 0.7 in
  let glassWidth :=
    if isFixed then sashWidth else sashWidth - sashProfileWidth * 2 in
  let glassHeight :=
    if isFixed then innerHeight else innerHeight - sashProfileWidth * 2 in
  let isHybrid :=
    bool_decide (openingType = dreh_kipp_links)
    || bool_decide (openingType = dreh_kipp_rechts) in
  let buttons :=
    match openingConfigs !! index with
    | Some c =>
        if showOpeningViz && bool_decide (type c ≠ fixed)
        then dreh :: (if isHybrid then [kipp_mode] else [])
        else []
    | None => []
    end in
  {| sr_glassWidth := glassWidth;
     sr_glassHeight := glassHeight;
     sr_sashFrame := negb isFixed;
     sr_glass := glassGeometries !! index;
     sr_toggles := buttons |}.

(** ** Mullion placement *)

Definition getPfostenTransform (xPosition innerHeight depth : R)
  : SegmentTransform :=
  let h := innerHeight in
  let d := depth in
  {| groupPosition := vec3 xPosition 0 0;
     meshRotation := vec3 (- PI / 2) 0 0;
     meshPosition := vec3 0 (- h / 2) (d / 2);
     meshScale := None |}.

(** One geometry shared by all mullions; none for a single pane. *)
Definition pfostenGeometry
  (heightCm : R) (windowType : Z) (profileConfig : ProfileConfig)
  : option ExtrudeGeometry :=
  if (windowType =? 1)%Z then None
  else
    let innerHeightMm := heightCm * 10 - width profileConfig * 2 in
    Some (createPfosten innerHeightMm profileConfig).

(** The X positions of the mullions that are needed, from left to
    right. *)
Definition pfostenPositions
  (pfostenNeeds : list bool) (widthCm : R) (windowType : Z)
  (profileConfig : ProfileConfig) : list R :=
  if (windowType =? 1)%Z then []
  else
    let innerWidth := widthCm * 10 * mm - width profileConfig * mm * 2 in
    let sashWidth := innerWidth / IZR windowType in
    omap (λ pos : option R, pos)
      (imap (λ i (needed : bool),
               if needed
               then Some (- innerWidth / 2 + sashWidth * (INR i + 1))
               else None)
            pfostenNeeds).

(** The mullion meshes of the render pass: the shared geometry with the
    transform of each position.  An undefined profile depth is [None]. *)
Definition renderPfosten
  (heightCm : R) (profileConfig : ProfileConfig)
  (pfostenGeometry : option ExtrudeGeometry) (pfostenPositions : list R)
  : option (list (ExtrudeGeometry * SegmentTransform)) :=
  match pfostenGeometry with
  | None => Some []
  | Some geometry =>
      d ← depth profileConfig;
      let innerHeight :=
        heightCm * 10 * mm - width profileConfig * mm * 2 in
      Some ((λ xPos,
               (geometry, getPfostenTransform xPos innerHeight (d * mm)))
              <$> pfostenPositions)
  end.

(** ** Hinge and pivot of a sash *)

Record SashPlacement := {
  hingeX : R;
  hingeY : R;
  sashOffsetX : R;
  sashOffsetY : R;
  rotationAxis : Vector3
}.

(** Centre of the opening of sash [index]. *)
Definition baseSashX (innerWidth sashWidth : R) (windowType : Z)
  (index : nat) : R :=
  if (windowType =? 1)%Z then 0
  else - innerWidth / 2 + sashWidth / 2 + INR index * sashWidth.

(** The hinge position, the offset of the sash from its hinge and the
    rotation, by opening kind and mode. *)
Definition sashPlacement
  (widthCm heightCm : R) (windowType : Z) (profileConfig : ProfileConfig)
  (openingConfigs : list OpeningConfig) (st : State) (index : nat)
  : SashPlacement :=
  let innerWidth := widthCm * 10 * mm - width profileConfig * mm * 2 in
  let innerHeight := heightCm * 10 * mm - width profileConfig * mm * 2 in
  let sashWidth :=
    if (windowType =? 1)%Z then innerWidth
    else innerWidth / IZR windowType in
  let currentRotation := JS.or_opt_num (JS.get (sashRotations st) index) 0 in
  let openingType := default fixed (type <$> openingConfigs !! index) in
  let currentMode := default dreh (JS.get (sashModes st) index) in
  let baseSashX := baseSashX innerWidth sashWidth windowType index in
  let kippPlacement :=
    {| hingeX := baseSashX; hingeY := - innerHeight / 2;
       sashOffsetX := 0; sashOffsetY := innerHeight / 2;
       rotationAxis := vec3 currentRotation 0 0 |} in
  let drehLinksPlacement :=
    {| hingeX := baseSashX - sashWidth / 2; hingeY := 0;
       sashOffsetX := sashWidth / 2; sashOffsetY := 0;
       rotationAxis := vec3 0 currentRotation 0 |} in
  let drehRechtsPlacement :=
    {| hingeX := baseSashX + sashWidth / 2; hingeY := 0;
       sashOffsetX := - sashWidth / 2; sashOffsetY := 0;
       rotationAxis := vec3 0 currentRotation 0 |} in
  match openingType with
  | kipp => kippPlacement
  | dreh_links => drehLinksPlacement
  | dreh_rechts => drehRechtsPlacement
  | dreh_kipp_links =>
      if decide (currentMode = kipp_mode) then kippPlacement
      else drehLinksPlacement
  | dreh_kipp_rechts =>
      if decide (currentMode = kipp_mode) then kippPlacement
      else drehRechtsPlacement
  | fixed =>
      {| hingeX := baseSashX; hingeY := 0;
         sashOffsetX := 0; sashOffsetY := 0;
         rotationAxis := vec3 0 0 0 |}
  end.

(** Where a point of the sash ends up: the groups nest as hinge position,
    rotation about the hinge, offset of the sash. *)
Definition placeInSash (pl : SashPlacement) (p : Vector3) : Vector3 :=
  add (vec3 (hingeX pl) (hingeY pl) 0)
      (applyEuler (rotationAxis pl)
                  (add (vec3 (sashOffsetX pl) (sashOffsetY pl) 0) p)).

(** ** The toggle buttons *)

(** The [isOpen] prop of a button: the main button stands for mode dreh on
    a hybrid sash, the second button for mode kipp. *)
Definition buttonShownOpen
  (openingConfigs : list OpeningConfig) (st : State) (index : nat)
  (button : Mode) : bool :=
  let openingType := default fixed (type <$> openingConfigs !! index) in
  let currentMode := default dreh (JS.get (sashModes st) index) in
  let isHybrid :=
    bool_decide (openingType = dreh_kipp_links)
    || bool_decide (openingType = dreh_kipp_rechts) in
  let isOpen := default false (JS.get (sashOpenStates st) index) in
  match button with
  | dreh => isOpen && (negb isHybrid || bool_decide (currentMode = dreh))
  | kipp_mode => isOpen && bool_decide (currentMode = kipp_mode)
  end.

(** A click: [handleClick] of the button negates its [isOpen] prop and
    hands it to [handleSashOpenChange] with the mode of the button. *)
Definition clickButton
  (openingConfigs : list OpeningConfig) (index : nat) (button : Mode)
  (st : State) : State :=
  let newState := negb (buttonShownOpen openingConfigs st index button) in
  handleSashOpenChange index newState button st.

End Window.

(* ===================================================================== *)
(** * components/OpeningVisualization.tsx                                *)
(* ===================================================================== *)

Module OpeningVisualization.
Import THREE.

Record Indicator := {
  buttonX : R;
  buttonY : R;
  lines : list (Vector3 * Vector3)
}.

(** The button position and the indicator lines on the glass of width [w]
    and height [h], kept [m] away from its edges, at depth [lineZ].  A
    fixed sash has neither lines nor a clickable button: [None]. *)
Definition indicator
  (openingType : OpeningType) (glassWidth glassHeight glassFrontZ margin : R)
  : option Indicator :=
  let w := glassWidth in
  let h := glassHeight in
  let m := margin in
  let lineZ := glassFrontZ in
  let topLeft := (- w / 2 + m, h / 2 - m) in
  let topRight := (w / 2 - m, h / 2 - m) in
  let bottomLeft := (- w / 2 + m, - h / 2 + m) in
  let bottomRight := (w / 2 - m, - h / 2 + m) in
  let midTop := (0, h / 2 - m) in
  let midLeft := (- w / 2 + m, 0) in
  let midRight := (w / 2 - m, 0) in
  let line (p q : R * R) := (vec3 p.1 p.2 lineZ, vec3 q.1 q.2 lineZ) in
  match openingType with
  | fixed => None
  | kipp =>
      Some {| buttonX := midTop.1; buttonY := midTop.2;
              lines := [ line bottomLeft midTop; line midTop bottomRight ] |}
  | dreh_links =>
      Some {| buttonX := midRight.1; buttonY := midRight.2;
              lines := [ line midRight topLeft; line midRight bottomLeft ] |}
  | dreh_rechts =>
      Some {| buttonX := midLeft.1; buttonY := midLeft.2;
              lines := [ line midLeft topRight; line midLeft bottomRight ] |}
  | dreh_kipp_links =>
      Some {| buttonX := midRight.1; buttonY := midRight.2;
              lines := [ line midRight topLeft; line midRight bottomLeft;
                         line bottomLeft midTop; line midTop bottomRight ] |}
  | dreh_kipp_rechts =>
      Some {| buttonX := midLeft.1; buttonY := midLeft.2;
              lines := [ line midLeft topRight; line midLeft bottomRight;
                         line bottomLeft midTop; line midTop bottomRight ] |}
  end.

End OpeningVisualization.

(* ===================================================================== *)
(** * The configuration model: types.ts, constants.ts, utils.ts          *)
(* ===================================================================== *)

(** The fields of the configuration records carry a prefix, several of
    them sharing their names ([width], [type], [enabled]) with each other
    and with [ProfileConfig]. *)
Module Config.

Record FrameMaterial := {
  fm_material : string;
  fm_colorOutside : string;
  fm_colorInside : string
}.

Record GlassMaterial := {
  gm_type : string;
  gm_color : option string
}.

Record MuntinsConfig := {
  mc_enabled : bool;
  mc_pattern : string;
  mc_rows : Z;
  mc_columns : Z;
  mc_width : R
}.

Record HandleConfig := {
  hc_id : string;
  hc_position : R * R * R;
  hc_rotation : option (R * R * R);
  hc_modelKey : option string
}.

(** [Partial<HandleConfig>]: a key that is absent is [None]; the optional
    keys may be present and undefined. *)
Record PartialHandleConfig := {
  ph_id : option string;
  ph_position : option (R * R * R);
  ph_rotation : option (option (R * R * R));
  ph_modelKey : option (option string)
}.

Record TransomConfig := {
  tc_enabled : bool;
  tc_height : R;
  tc_material : option FrameMaterial
}.

Record FalightConfig := {
  fc_enabled : bool;
  fc_height : R;
  fc_material : option FrameMaterial
}.

Record ShuttersConfig := {
  sc_enabled : bool;
  sc_type : string;
  sc_color : string;
  sc_thickness : R
}.

Record InsectScreenConfig := {
  ic_enabled : bool;
  ic_type : string;
  ic_color : string
}.

Record WindowConfiguration := {
  wc_id : string;
  wc_name : string;
  wc_width : R;
  wc_height : R;
  wc_depth : R;
  wc_type : string;
  wc_frame : FrameMaterial;
  wc_glass : GlassMaterial;
  wc_profile : ProfileConfig;
  wc_muntins : MuntinsConfig;
  wc_handles : list HandleConfig;
  wc_opening : OpeningConfig;
  wc_transom : option TransomConfig;
  wc_falight : option FalightConfig;
  wc_shutters : option ShuttersConfig;
  wc_insectScreen : option InsectScreenConfig
}.

Definition WINDOW_MIN_WIDTH : R := 400.
Definition WINDOW_MAX_WIDTH : R := 3000.
Definition WINDOW_MIN_HEIGHT : R := 400.
Definition WINDOW_MAX_HEIGHT : R := 3000.
Definition WINDOW_MIN_DEPTH : R := 50.
Definition WINDOW_MAX_DEPTH : R := 150.

Definition DEFAULT_FRAME_MATERIAL : FrameMaterial :=
  {| fm_material := "PVC"; fm_colorOutside := "#ffffff";
     fm_colorInside := "#ffffff" |}.

Definition DEFAULT_GLASS_MATERIAL : GlassMaterial :=
  {| gm_type := "double"; gm_color := Some "#c8e8f0" |}.

Definition DEFAULT_PROFILE : ProfileConfig :=
  {| profileKey := "modern-slim"; width := 60; depth := None;
     glassRebateDepth := None; sightline := None |}.

Definition DEFAULT_WINDOW_CONFIG : WindowConfiguration :=
  {| wc_id := "window-default";
     wc_name := "Standard Window";
     wc_width := 1000;
     wc_height := 1200;
     wc_depth := 80;
     wc_type := "1-part";
     wc_frame := DEFAULT_FRAME_MATERIAL;
     wc_glass := DEFAULT_GLASS_MATERIAL;
     wc_profile := DEFAULT_PROFILE;
     wc_muntins :=
       {| mc_enabled := false; mc_pattern := "none"; mc_rows := 0;
          mc_columns := 0; mc_width := 20 |};
     wc_handles :=
       [ {| hc_id := "handle-1"; hc_position := (500, 600, 0);
            hc_rotation := None; hc_modelKey := None |} ];
     wc_opening := {| type := dreh_kipp_links |};
     wc_transom := None;
     wc_falight := None;
     wc_shutters := None;
     wc_insectScreen := None |}.





Definition clampWidth (width : R) : R :=
  Rmax WINDOW_MIN_WIDTH (Rmin WINDOW_MAX_WIDTH width).

Definition clampHeight (height : R) : R :=
  Rmax WINDOW_MIN_HEIGHT (Rmin WINDOW_MAX_HEIGHT height).

Definition clampDepth (depth : R) : R :=
  Rmax WINDOW_MIN_DEPTH (Rmin WINDOW_MAX_DEPTH depth).

Definition calculateInnerWidth (windowConfig : WindowConfiguration) : R :=
  let frameThickness := width (wc_profile windowConfig) * 2 in
  Rmax 0 (wc_width windowConfig - frameThickness).

Definition calculateInnerHeight (windowConfig : WindowConfiguration) : R :=
  let frameThickness := width (wc_profile windowConfig) * 2 in
  Rmax 0 (wc_height windowConfig - frameThickness).

Definition getGlassPaneCount (windowType : string) : Z :=
  if String.eqb windowType "1-part" then 1
  else if String.eqb windowType "2-part" then 2
  else if String.eqb windowType "3-part" then 3
  else 1.

Definition getPaneWidth (windowConfig : WindowConfiguration) : R :=
  let innerWidth := calculateInnerWidth windowConfig in
  let paneCount := getGlassPaneCount (wc_type windowConfig) in
  if (paneCount =? 1)%Z then innerWidth
  else if (paneCount =? 2)%Z
       then (innerWidth - width (wc_profile windowConfig)) / 2
  else if (paneCount =? 3)%Z
       then (innerWidth - width (wc_profile windowConfig) * 2) / 3
  else innerWidth.


End Config.

(* ===================================================================== *)
(** * useWindowContext.tsx: the reducer                                  *)
(* ===================================================================== *)

Module WindowContext.
Import Config.

Inductive WindowAction :=
  | SET_DIMENSIONS (width height depth : R)
  | SET_WIDTH (payload : R)
  | SET_HEIGHT (payload : R)
  | SET_DEPTH (payload : R)
  | SET_WINDOW_TYPE (payload : string)
  | SET_FRAME_MATERIAL (payload : FrameMaterial)
  | SET_FRAME_OUTSIDE_COLOR (payload : string)
  | SET_FRAME_INSIDE_COLOR (payload : string)
  | SET_PROFILE (payload : ProfileConfig)
  | SET_MUNTINS (payload : MuntinsConfig)
  | DISABLE_MUNTINS
  | ADD_HANDLE (payload : HandleConfig)
  | REMOVE_HANDLE (payload : string)
  | UPDATE_HANDLE (id : string) (config : PartialHandleConfig)
  | SET_OPENING (payload : OpeningConfig)
  | ENABLE_TRANSOM (payload : TransomConfig)
  | DISABLE_TRANSOM
  | ENABLE_FALIGHT (payload : FalightConfig)
  | DISABLE_FALIGHT
  | ENABLE_SHUTTERS (payload : ShuttersConfig)
  | DISABLE_SHUTTERS
  | ENABLE_INSECT_SCREEN (payload : InsectScreenConfig)
  | DISABLE_INSECT_SCREEN
  | SET_CONFIG (payload : WindowConfiguration)
  | RESET_TO_DEFAULTS.

(** [{ ...h, ...config }] *)
Definition mergeHandle (h : HandleConfig) (config : PartialHandleConfig)
  : HandleConfig :=
  {| hc_id := default (hc_id h) (ph_id config);
     hc_position := default (hc_position h) (ph_position config);
     hc_rotation := default (hc_rotation h) (ph_rotation config);
     hc_modelKey := default (hc_modelKey h) (ph_modelKey config) |}.

(** [{ ...state, ... }]: the state with new dimensions, with new
    structure fields, or with new optional features; the fields an action
    does not write are handed over as they are. *)
Definition withDimensions (state : WindowConfiguration) (w h d : R)
  : WindowConfiguration :=
  {| wc_id := wc_id state; wc_name := wc_name state;
     wc_width := w; wc_height := h; wc_depth := d;
     wc_type := wc_type state; wc_frame := wc_frame state;
     wc_glass := wc_glass state; wc_profile := wc_profile state;
     wc_muntins := wc_muntins state; wc_handles := wc_handles state;
     wc_opening := wc_opening state; wc_transom := wc_transom state;
     wc_falight := wc_falight state; wc_shutters := wc_shutters state;
     wc_insectScreen := wc_insectScreen state |}.

Definition withStructure (state : WindowConfiguration) (type : string)
  (frame : FrameMaterial) (profile : ProfileConfig)
  (muntins : MuntinsConfig) (handles : list HandleConfig)
  (opening : OpeningConfig) : WindowConfiguration :=
  {| wc_id := wc_id state; wc_name := wc_name state;
     wc_width := wc_width state; wc_height := wc_height state;
     wc_depth := wc_depth state;
     wc_type := type; wc_frame := frame;
     wc_glass := wc_glass state; wc_profile := profile;
     wc_muntins := muntins; wc_handles := handles;
     wc_opening := opening; wc_transom := wc_transom state;
     wc_falight := wc_falight state; wc_shutters := wc_shutters state;
     wc_insectScreen := wc_insectScreen state |}.

Definition withFeatures (state : WindowConfiguration)
  (transom : option TransomConfig) (falight : option FalightConfig)
  (shutters : option ShuttersConfig)
  (insectScreen : option InsectScreenConfig) : WindowConfiguration :=
  {| wc_id := wc_id state; wc_name := wc_name state;
     wc_width := wc_width state; wc_height := wc_height state;
     wc_depth := wc_depth state;
     wc_type := wc_type state; wc_frame := wc_frame state;
     wc_glass := wc_glass state; wc_profile := wc_profile state;
     wc_muntins := wc_muntins state; wc_handles := wc_handles state;
     wc_opening := wc_opening state; wc_transom := transom;
     wc_falight := falight; wc_shutters := shutters;
     wc_insectScreen := insectScreen |}.

Definition windowReducer (state : WindowConfiguration) (action : WindowAction)
  : WindowConfiguration :=
  let type := wc_type state in
  let frame := wc_frame state in
  let profile := wc_profile state in
  let muntins := wc_muntins state in
  let handles := wc_handles state in
  let opening := wc_opening state in
  let transom := wc_transom state in
  let falight := wc_falight state in
  let shutters := wc_shutters state in
  let insectScreen := wc_insectScreen state in
  match action with
  | SET_DIMENSIONS w h d =>
      withDimensions state (clampWidth w) (clampHeight h) (clampDepth d)
  | SET_WIDTH payload =>
      withDimensions state (clampWidth payload) (wc_height state)
                     (wc_depth state)
  | SET_HEIGHT payload =>
      withDimensions state (wc_width state) (clampHeight payload)
                     (wc_depth state)
  | SET_DEPTH payload =>
      withDimensions state (wc_width state) (wc_height state)
                     (clampDepth payload)
  | SET_WINDOW_TYPE payload =>
      withStructure state payload frame profile muntins handles opening
  | SET_FRAME_MATERIAL payload =>
      withStructure state type payload profile muntins handles opening
  | SET_FRAME_OUTSIDE_COLOR payload =>
      withStructure state type
        {| fm_material := fm_material frame;
           fm_colorOutside := payload;
           fm_colorInside := fm_colorInside frame |}
        profile muntins handles opening
  | SET_FRAME_INSIDE_COLOR payload =>
      withStructure state type
        {| fm_material := fm_material frame;
           fm_colorOutside := fm_colorOutside frame;
           fm_colorInside := payload |}
        profile muntins handles opening
  | SET_PROFILE payload =>
      withStructure state type frame payload muntins handles opening
  | SET_MUNTINS payload =>
      withStructure state type frame profile payload handles opening
  | DISABLE_MUNTINS =>
      withStructure state type frame profile
        {| mc_enabled := false;
           mc_pattern := mc_pattern muntins;
           mc_rows := mc_rows muntins;
           mc_columns := mc_columns muntins;
           mc_width := mc_width muntins |}
        handles opening
  | ADD_HANDLE payload =>
      withStructure state type frame profile muntins (handles ++ [payload])
                    opening
  | REMOVE_HANDLE payload =>
      withStructure state type frame profile muntins
        (filter (λ h, hc_id h ≠ payload) handles) opening
  | UPDATE_HANDLE id config =>
      withStructure state type frame profile muntins
        ((λ h, if decide (hc_id h = id) then mergeHandle h config else h)
           <$> handles)
        opening
  | SET_OPENING payload =>
      withStructure state type frame profile muntins handles payload
  | ENABLE_TRANSOM payload =>
      withFeatures state (Some payload) falight shutters insectScreen
  | DISABLE_TRANSOM =>
      withFeatures state None falight shutters insectScreen
  | ENABLE_FALIGHT payload =>
      withFeatures state transom (Some payload) shutters insectScreen
  | DISABLE_FALIGHT =>
      withFeatures state transom None shutters insectScreen
  | ENABLE_SHUTTERS payload =>
      withFeatures state transom falight (Some payload) insectScreen
  | DISABLE_SHUTTERS =>
      withFeatures state transom falight None insectScreen
  | ENABLE_INSECT_SCREEN payload =>
      withFeatures state transom falight shutters (Some payload)
  | DISABLE_INSECT_SCREEN =>
      withFeatures state transom falight shutters None
  | SET_CONFIG payload => payload
  | RESET_TO_DEFAULTS => DEFAULT_WINDOW_CONFIG
  end.

End WindowContext.

(* ===================================================================== *)
(** * geometryBuilders.ts                                                *)
(* ===================================================================== *)

Module GeometryBuilders.

(** [new PlaneGeometry(w, h)] centred at the origin, then
    [translate(x, y, z)]. *)
Record PlaneGeometry := {
  plane_width : R;
  plane_height : R;
  plane_x : R;
  plane_y : R;
  plane_z : R
}.

(** The frame as one box. *)
Definition buildFrameGeometry (width height frameWidth : R)
  : THREE.BoxGeometry :=
  {| THREE.box_width := width; THREE.box_height := height;
     THREE.box_depth := frameWidth; THREE.box_z := 0 |}.

(** The result of [buildGlassGeometry]: one geometry, or an array. *)
Inductive GlassGeometry :=
  | OnePane (geometry : PlaneGeometry)
  | Panes (geometries : list PlaneGeometry).

Definition buildGlassGeometry
  (width height frameWidth : R) (paneCount : Z)
  (glazingThickness : option R) : GlassGeometry :=
  let glazingThickness := default 6 glazingThickness in
  let innerWidth := width - frameWidth * 2 in
  let innerHeight := height - frameWidth * 2 in
  if (paneCount =? 1)%Z
  then
    OnePane {| plane_width := innerWidth; plane_height := innerHeight;
               plane_x := 0; plane_y := 0;
               plane_z := frameWidth / 2 + glazingThickness / 2 |}
  else
    let paneWidth :=
      (innerWidth - frameWidth * (IZR paneCount - 1)) / IZR paneCount in
    Panes
      ((λ i : nat,
          let xOffset :=
            innerWidth / 2 - frameWidth / 2
            - INR i * (paneWidth + frameWidth) - paneWidth / 2 in
          {| plane_width := paneWidth; plane_height := innerHeight;
             plane_x := xOffset; plane_y := 0;
             plane_z := frameWidth / 2 + glazingThickness / 2 |})
         <$> seq 0 (Z.to_nat paneCount)).

(** The bars of a grid of muntins: the horizontal ones from the top down,
    then the vertical ones from the left. *)
Definition buildMuntinsGeometryGrid
  (width height frameWidth : R) (rows columns : Z) (muntinWidth : R)
  : list PlaneGeometry :=
  let innerWidth := width - frameWidth * 2 in
  let innerHeight := height - frameWidth * 2 in
  let horizontal :=
    if (0 <? rows)%Z
    then
      let spacingY := innerHeight / (IZR rows + 1) in
      (λ i : nat,
         let yOffset := innerHeight / 2 - INR i * spacingY in
         {| plane_width := innerWidth; plane_height := muntinWidth;
            plane_x := 0; plane_y := yOffset;
            plane_z := frameWidth / 2 + 3 |})
        <$> seq 1 (Z.to_nat rows)
    else [] in
  let vertical :=
    if (0 <? columns)%Z
    then
      let spacingX := innerWidth / (IZR columns + 1) in
      (λ i : nat,
         let xOffset := - (innerWidth / 2) + INR i * spacingX in
         {| plane_width := muntinWidth; plane_height := innerHeight;
            plane_x := xOffset; plane_y := 0;
            plane_z := frameWidth / 2 + 3 |})
        <$> seq 1 (Z.to_nat columns)
    else [] in
  horizontal ++ vertical.

Definition buildMuntinsGeometryCross
  (width height frameWidth muntinWidth : R) : list PlaneGeometry :=
  let innerWidth := width - frameWidth * 2 in
  let innerHeight := height - frameWidth * 2 in
  [ {| plane_width := innerWidth; plane_height := muntinWidth;
       plane_x := 0; plane_y := 0; plane_z := frameWidth / 2 + 3 |};
    {| plane_width := muntinWidth; plane_height := innerHeight;
       plane_x := 0; plane_y := 0; plane_z := frameWidth / 2 + 3 |} ].

(** The handle: 50 mm from the right edge, at half the height, 10 mm in
    front of the profile. *)
Definition calculateHandlePosition (windowConfig : Config.WindowConfiguration)
  : R * R * R :=
  let x := Config.wc_width windowConfig / 2 - 50 in
  let y := Config.wc_height windowConfig / 2 in
  let z := width (Config.wc_profile windowConfig) + 10 in
  (x, y, z).

End GeometryBuilders.

(* ===================================================================== *)
(** * utils.ts: colours                                                  *)
(* ===================================================================== *)

Module Colors.

(** [Math.round]: the nearest integer, a half rounded up. *)
Definition Math_round (x : R) : Z := Int_part (x + / 2).

(** [n.toString(16)] of an integer: lower-case digits without leading
    zeros, a minus sign before those of a negative number. *)
Definition toString16 (n : Z) : string :=
  HexadecimalString.NilZero.string_of_int (Z.to_hex_int n).

(** The value of a character that [[a-f\d]] matches under the flag [i]. *)
Definition hexDigit (c : ascii) : option Z :=
  let n := Z.of_N (N_of_ascii c) in
  if (48 <=? n)%Z && (n <=? 57)%Z then Some (n - 48)%Z
  else if (97 <=? n)%Z && (n <=? 102)%Z then Some (n - 87)%Z
  else if (65 <=? n)%Z && (n <=? 70)%Z then Some (n - 55)%Z
  else None.

(** [parseInt(group, 16)] of a group of two such characters; [None] when
    the group does not match. *)
Definition parseHexPair (c1 c2 : ascii) : option Z :=
  d1 ← hexDigit c1; d2 ← hexDigit c2; Some (16 * d1 + d2)%Z.

(** The expression [/^#?([a-f\d]{2})([a-f\d]{2})([a-f\d]{2})$/i]: an
    optional [#], which is no digit, then exactly six digits. *)
Definition hexToRgb (hex : string) : option (R * R * R) :=
  let body :=
    match hex with
    | String "#"%char rest => rest
    | _ => hex
    end in
  match body with
  | String c1 (String c2 (String c3 (String c4 (String c5
      (String c6 EmptyString))))) =>
      r ← parseHexPair c1 c2;
      g ← parseHexPair c3 c4;
      b ← parseHexPair c5 c6;
      Some (IZR r / 255, IZR g / 255, IZR b / 255)
  | _ => None
  end.

Definition rgbToHex (r g b : R) : string :=
  "#" +:+
  String.concat ""
    ((λ x,
        let hex := toString16 (Math_round (x * 255)) in
        if (String.length hex =? 1)%nat then "0" +:+ hex else hex)
       <$> [r; g; b]).

End Colors.

(* ===================================================================== *)
(** * useWindowGeometry.tsx: the computed geometry                       *)
(* ===================================================================== *)

Module WindowGeometry.
Import Config GeometryBuilders.

Record ComputedGeometry := {
  cg_frameGeometry : option THREE.BoxGeometry;
  cg_glassGeometries : option GlassGeometry;
  cg_muntinGeometries : option (list PlaneGeometry);
  cg_innerWidth : R;
  cg_innerHeight : R;
  cg_paneCount : Z
}.

(** The builders do not throw, so the [catch] branches, which give
    [null], are never taken; [null] is [None]. *)
Definition useWindowGeometry (config : WindowConfiguration)
  : ComputedGeometry :=
  let frameGeometry :=
    Some (buildFrameGeometry (wc_width config) (wc_height config)
                             (width (wc_profile config))) in
  let glassGeometries :=
    let paneCount := getGlassPaneCount (wc_type config) in
    Some (buildGlassGeometry (wc_width config) (wc_height config)
                             (width (wc_profile config)) paneCount None) in
  let muntinGeometries :=
    if negb (mc_enabled (wc_muntins config)) then None
    else if String.eqb (mc_pattern (wc_muntins config)) "grid"
    then Some (buildMuntinsGeometryGrid
                 (wc_width config) (wc_height config)
                 (width (wc_profile config))
                 (mc_rows (wc_muntins config))
                 (mc_columns (wc_muntins config))
                 (mc_width (wc_muntins config)))
    else if String.eqb (mc_pattern (wc_muntins config)) "cross"
    then Some (buildMuntinsGeometryCross
                 (wc_width config) (wc_height config)
                 (width (wc_profile config))
                 (mc_width (wc_muntins config)))
    else None in
  {| cg_frameGeometry := frameGeometry;
     cg_glassGeometries := glassGeometries;
     cg_muntinGeometries := muntinGeometries;
     cg_innerWidth := calculateInnerWidth config;
     cg_innerHeight := calculateInnerHeight config;
     cg_paneCount := getGlassPaneCount (wc_type config) |}.

End WindowGeometry.

(* ===================================================================== *)
(** * The properties under study                                         *)
(* ===================================================================== *)

Module Spec.
Import THREE ProfileSystem Window.

(** ** Frame ring *)



(** ** Depth layout *)


(** Least and greatest depth coordinate of a cross-section. *)
Definition shapeMinY (s : Shape) : R :=
  match s with
  | [] => 0
  | p :: ps => foldr (λ q m, Rmin q.2 m) p.2 ps
  end.

Definition shapeMaxY (s : Shape) : R :=
  match s with
  | [] => 0
  | p :: ps => foldr (λ q m, Rmax q.2 m) p.2 ps
  end.

(** World Z of the back and of the front face of a placed segment. *)
Definition frameBack (ps : PlacedSegment) : R :=
  vz (worldVertex ps 0 (shapeMinY (eg_shape (ps_geometry ps))) 0).

Definition frameFront (ps : PlacedSegment) : R :=
  vz (worldVertex ps 0 (shapeMaxY (eg_shape (ps_geometry ps))) 0).

(** ** Kinematics *)

(** The target table as the specification words it. *)
Definition spec_target (kind : OpeningType) (mode : Mode) : R :=
  match kind with
  | fixed => 0
  | kipp => PI / 16
  | dreh_links => - (0.6 * PI)
  | dreh_rechts => 0.6 * PI
  | dreh_kipp_links =>
      match mode with kipp_mode => PI / 16 | dreh => - (0.6 * PI) end
  | dreh_kipp_rechts =>
      match mode with kipp_mode => PI / 16 | dreh => 0.6 * PI end
  end.

(** The angle lies between the rest position and the target. *)
Definition between (target angle : R) : Prop :=
  (0 <= angle <= target) ∨ (target <= angle <= 0).


(** A number of frames of [dt] seconds after which a sash heading for
    [T] from rest has snapped to it. *)
Definition settleFrames (T dt : R) : nat :=
  S (Z.to_nat (up (100 * Rabs T / (3 * dt)))).

(** An event other than the passing of wall-clock time. *)
Definition untimed (e : Event) : Prop :=
  match e with
  | Elapse _ => False
  | _ => True
  end.

(** The mode switch as the specification asks for it: after the request
    the sash is closed at angle 0; the frames alone bring the reopen
    about; and whatever a second toggle asks for holds from then on. *)
Definition mode_switch_as_specified
  (openingConfigs : list OpeningConfig) (st : State)
  (index : nat) (mode : Mode) : Prop :=
  let st1 := handleSashOpenChange index true mode st in
  (JS.get (sashRotations st1) index = Some 0
   ∧ JS.get (sashOpenStates st1) index = Some false)
  ∧ (∃ deltas,
       JS.get (sashOpenStates (run openingConfigs (Frame <$> deltas) st1))
              index = Some true)
  ∧ ∀ isOpen2 mode2 ms,
      JS.get (sashOpenStates
                (elapse ms (handleSashOpenChange index isOpen2 mode2 st1)))
             index = Some isOpen2.


(** The state before any sash has been rendered. *)
Definition noSashes : State :=
  {| sashOpenStates := []; sashRotations := []; sashModes := [];
     timeouts := [] |}.

(** ** Mullions *)

(** The two concrete cases of the mullion rule as the specification
    words them, for the override [manualSetting] at the second
    boundary. *)
Definition mullion_rule_as_specified (manualSetting : JS.int) : Prop :=
  pfostenRequired {| type := dreh_kipp_links |} {| type := dreh_kipp_links |}
                  (Some 0%Z) = true
  ∧ pfostenRequired {| type := dreh_rechts |} {| type := dreh_links |}
                    manualSetting = JS.eqb manualSetting 2.

(** ** Fallbacks *)

(** A choice that selects no entry of a table of [size] entries. *)
Definition unmapped (size : Z) (choice : JS.int) : Prop :=
  match choice with
  | Some z => (z < 1 ∨ size < z)%Z
  | None => True
  end.

(** ** Cross-sections *)

(** A path is closed when it ends where it starts. *)
Definition closedPath (s : Shape) : Prop :=
  ∃ p rest, s = p :: rest ∧ last rest = Some p.

(** The signed area of a path by the shoelace formula, positive when the
    path runs counter-clockwise. *)
Fixpoint shoelace (s : Shape) : R :=
  match s with
  | p :: ((q :: _) as rest) => (p.1 * q.2 - q.1 * p.2) / 2 + shoelace rest
  | _ => 0
  end.

(** All points of the path lie in the box [x0, x1] x [0, d]. *)
Definition inBox (x0 x1 d : R) (s : Shape) : Prop :=
  Forall (λ p, x0 <= p.1 <= x1 ∧ 0 <= p.2 <= d) s.

(** ** Hinges *)

(** The edge a sash is hinged on, by kind and mode: the bottom edge for a
    tilt, the left or right edge for a turn. *)
Inductive HingeEdge := BottomEdge | LeftEdge | RightEdge | NoHinge.

Definition hingeEdge (kind : OpeningType) (mode : Mode) : HingeEdge :=
  match kind with
  | fixed => NoHinge
  | kipp => BottomEdge
  | dreh_links => LeftEdge
  | dreh_rechts => RightEdge
  | dreh_kipp_links =>
      match mode with kipp_mode => BottomEdge | dreh => LeftEdge end
  | dreh_kipp_rechts =>
      match mode with kipp_mode => BottomEdge | dreh => RightEdge end
  end.

(** ** Sash state *)

(** The three state arrays hold [n] sashes without holes, and every
    pending reopen is for one of them. *)
Definition wellSized (n : nat) (st : State) : Prop :=
  length (sashOpenStates st) = n
  ∧ length (sashRotations st) = n
  ∧ length (sashModes st) = n
  ∧ Forall is_Some (sashOpenStates st)
  ∧ Forall is_Some (sashRotations st)
  ∧ Forall is_Some (sashModes st)
  ∧ Forall (λ t, (t.2 < n)%nat) (timeouts st).

(** The events that a window of [n] sashes can receive: toggles of its
    own sashes, frames, and the passing of time. *)
Definition eventFor (n : nat) (e : Event) : Prop :=
  match e with
  | Toggle index _ _ => (index < n)%nat
  | _ => True
  end.

(** ** Indicators *)

(** Both ends of a line lie on the plane [z] and in the rectangle that the
    glass leaves after taking [m] off every edge. *)
Definition onGlass (w h z m : R) (l : Vector3 * Vector3) : Prop :=
  let inside p :=
    - w / 2 + m <= vx p <= w / 2 - m
    ∧ - h / 2 + m <= vy p <= h / 2 - m
    ∧ vz p = z in
  inside l.1 ∧ inside l.2.

(** ** Outline *)

(** The point [(x, y)] lies in the bounding box of the points of a
    path. *)
Definition insideOutline (s : Shape) (x y : R) : Prop :=
  (∃ p q, p ∈ s ∧ q ∈ s ∧ p.1 <= x <= q.1)
  ∧ (∃ p q, p ∈ s ∧ q ∈ s ∧ p.2 <= y <= q.2).

End Spec.

(* ===================================================================== *)
(** * Facts about arrays with holes                                      *)
(* ===================================================================== *)

Section js_arrays.
Context {A B : Type}.
Implicit Types (arr : JS.array A) (i j : nat).

Lemma get_set_eq arr i (v : A) : JS.get (JS.set i v arr) i = Some v.
Proof.
  unfold JS.get, JS.set. destruct (Nat.ltb_spec i (length arr)); cbn [mjoin].
  - by rewrite list_lookup_insert_eq.
  - rewrite lookup_app_r by lia.
    rewrite lookup_app_r; rewrite length_replicate; [|lia].
    by rewrite Nat.sub_diag.
Qed.

Lemma get_set_ne arr i j (v : A) :
  i ≠ j → JS.get (JS.set i v arr) j = JS.get arr j.
Proof.
  intros Hij. unfold JS.get, JS.set.
  destruct (Nat.ltb_spec i (length arr)); cbn [mjoin].
  - by rewrite list_lookup_insert_ne.
  - destruct (decide (j < length arr)%nat) as [Hj|Hj].
    + by rewrite lookup_app_l.
    + rewrite (lookup_ge_None_2 arr j) by lia.
      rewrite lookup_app_r by lia.
      destruct (decide (j - length arr < i - length arr)%nat).
      * rewrite lookup_app_l by (rewrite length_replicate; lia).
        rewrite lookup_replicate_2; [done|lia].
      * rewrite lookup_app_r by (rewrite length_replicate; lia).
        rewrite length_replicate.
        rewrite lookup_ge_None_2; [done|simpl; lia].
Qed.

Lemma get_map (f : A → nat → B) arr i :
  JS.get (JS.map f arr) i = (λ x, f x i) <$> JS.get arr i.
Proof.
  unfold JS.get, JS.map. rewrite list_lookup_imap.
  by destruct (arr !! i) as [[?|]|].
Qed.

Lemma length_map (f : A → nat → B) arr :
  length (JS.map f arr) = length arr.
Proof. unfold JS.map. by rewrite length_imap. Qed.

Lemma get_Some_length arr i (v : A) :
  JS.get arr i = Some v → (i < length arr)%nat.
Proof.
  unfold JS.get. intros H. apply lookup_lt_is_Some.
  destruct (arr !! i); [by eexists|done].
Qed.
End js_arrays.

Lemma or_num_pos x def : 0 < x → JS.or_num x def = x.
Proof. intros Hx. unfold JS.or_num. destruct (Req_dec_T x 0); lra. Qed.

Lemma or_num_zero x : JS.or_num x 0 = x.
Proof. unfold JS.or_num. by destruct (Req_dec_T x 0). Qed.

Lemma or_opt_num_pos x def : 0 < x → JS.or_opt_num (Some x) def = x.
Proof. apply or_num_pos. Qed.

(* ===================================================================== *)
(** * Frame rings: segment lengths and corner joints                     *)
(* ===================================================================== *)

Module FrameRing.
Import THREE ProfileSystem Window Spec.

Lemma neg_half_PI : - PI / 2 = - (PI / 2).
Proof. lra. Qed.

Lemma euler_bottom p :
  applyEuler (vec3 (- PI / 2) (PI / 2) PI) p = vec3 (vz p) (vx p) (vy p).
Proof.
  unfold applyEuler; simpl. rewrite neg_half_PI.
  rewrite cos_neg, sin_neg, cos_PI2, sin_PI2, cos_PI, sin_PI.
  f_equal; ring.
Qed.

Lemma euler_top p :
  applyEuler (vec3 (- PI / 2) (- PI / 2) PI) p
  = vec3 (- vz p) (- vx p) (vy p).
Proof.
  unfold applyEuler; simpl. rewrite neg_half_PI.
  rewrite cos_neg, sin_neg, cos_PI2, sin_PI2, cos_PI, sin_PI.
  f_equal; ring.
Qed.

Lemma euler_left p :
  applyEuler (vec3 (PI / 2) 0 0) p = vec3 (vx p) (- vz p) (vy p).
Proof.
  unfold applyEuler; simpl.
  rewrite cos_PI2, sin_PI2, cos_0, sin_0.
  f_equal; ring.
Qed.

Lemma euler_right p :
  applyEuler (vec3 (- PI / 2) 0 PI) p = vec3 (- vx p) (vz p) (vy p).
Proof.
  unfold applyEuler; simpl. rewrite neg_half_PI.
  rewrite cos_neg, sin_neg, cos_PI2, sin_PI2, cos_0, sin_0, cos_PI, sin_PI.
  f_equal; ring.
Qed.

(** The placement table: where each edge puts a local vertex. *)
Lemma place_bottom w h d pw x y z :
  placeVertex (getFrameSegmentTransform bottom w h d pw) (vec3 x y z)
  = vec3 (- w / 2 + pw + z) (- h / 2 + x) (- d / 2 + y).
Proof.
  unfold placeVertex; simpl. rewrite euler_bottom.
  unfold add; simpl. f_equal; lra.
Qed.

Lemma place_top w h d pw x y z :
  placeVertex (getFrameSegmentTransform top w h d pw) (vec3 x y z)
  = vec3 (w / 2 - pw - z) (h / 2 - x) (- d / 2 + y).
Proof.
  unfold placeVertex; simpl. rewrite euler_top.
  unfold add; simpl. f_equal; lra.
Qed.

Lemma place_left w h d pw x y z :
  placeVertex (getFrameSegmentTransform left w h d pw) (vec3 x y z)
  = vec3 (- w / 2 + x) (h / 2 - z) (- d / 2 + y).
Proof.
  unfold placeVertex; simpl. rewrite euler_left.
  unfold add; simpl. f_equal; lra.
Qed.

Lemma place_right w h d pw x y z :
  placeVertex (getFrameSegmentTransform right w h d pw) (vec3 x y z)
  = vec3 (w / 2 - x) (- h / 2 + z) (- d / 2 + y).
Proof.
  unfold placeVertex; simpl. rewrite euler_right.
  unfold add; simpl. f_equal; lra.
Qed.









End FrameRing.


(* ===================================================================== *)
(** * Depth layout: glass and frame offsets                              *)
(* ===================================================================== *)

Module DepthLayout.
Import THREE ProfileSystem Window Spec.




Lemma shape_depth_range totalWidth totalDepth :
  0 < totalDepth →
  shapeMinY (createLShapeProfileCrossSection totalWidth totalDepth) = 0
  ∧ shapeMaxY (createLShapeProfileCrossSection totalWidth totalDepth)
    = totalDepth * mm.
Proof.
  intros Hd. unfold shapeMinY, shapeMaxY, createLShapeProfileCrossSection.
  cbn [foldr snd]. assert (0 < totalDepth * mm) by (unfold mm; lra).
  split.
  - unfold Rmin. repeat destruct (Rle_dec _ _); lra.
  - unfold Rmax. repeat destruct (Rle_dec _ _); lra.
Qed.

(** C7.  For a positive profile depth and a non-negative glass thickness
    the front face of the glass is at [glassZ + thickness / 2], and every
    segment of the outer frame has its front face strictly in front of its
    back face (they are at [+profileDepth / 2] and [-profileDepth / 2]). *)
Theorem glass_front_and_frame_depth
  (widthCm heightCm : R) (windowType : Z) (cfg : ProfileConfig)
  (profileDepth glassThickness : R) :
  depth cfg = Some profileDepth →
  0 < profileDepth → 0 <= glassThickness →
  calculateGlassFrontZPosition cfg glassThickness
  = calculateGlassZPosition cfg glassThickness + glassThickness * mm / 2
  ∧ ∃ segments,
      renderOuterFrame widthCm heightCm cfg
        (createCompleteFrame (widthCm * 10) (heightCm * 10) windowType cfg)
      = Some segments
      ∧ length segments = 4%nat
      ∧ Forall (λ ps, frameFront ps > frameBack ps
                      ∧ frameBack ps = - (profileDepth * mm) / 2
                      ∧ frameFront ps = profileDepth * mm / 2) segments.
Proof.
  intros Hd Hpd Ht. split; [reflexivity|].
  unfold renderOuterFrame, createCompleteFrame. rewrite Hd.
  rewrite (or_opt_num_pos _ _ Hpd).
  eexists. split; [reflexivity|]. split; [reflexivity|].
  pose proof (shape_depth_range (JS.or_num (width cfg) 60) profileDepth Hpd)
    as [Hmin Hmax].
  repeat (apply List.Forall_cons;
    [unfold frameFront, frameBack, worldVertex;
     cbn [ps_geometry eg_shape ps_transform]; rewrite Hmin, Hmax;
     first [rewrite !FrameRing.place_bottom | rewrite !FrameRing.place_top
           | rewrite !FrameRing.place_left | rewrite !FrameRing.place_right];
     cbn [vz]; unfold mm in *; lra|]).
  apply List.Forall_nil.
Qed.

Lemma glass_front_and_frame_depth_witness :
  let cfg := {| profileKey := "modern-slim"; width := 60; depth := Some 70;
                glassRebateDepth := Some 18; sightline := Some 35 |} in
  calculateGlassFrontZPosition cfg 24
  = calculateGlassZPosition cfg 24 + 24 * mm / 2
  ∧ ∃ segments,
      renderOuterFrame 100 120 cfg
        (createCompleteFrame (100 * 10) (120 * 10) 2 cfg)
      = Some segments
      ∧ length segments = 4%nat
      ∧ Forall (λ ps, frameFront ps > frameBack ps
                      ∧ frameBack ps = - (70 * mm) / 2
                      ∧ frameFront ps = 70 * mm / 2) segments.
Proof.
  intros cfg.
  apply (glass_front_and_frame_depth 100 120 2 cfg 70 24);
    [reflexivity|lra|lra].
Defined.

End DepthLayout.


(* ===================================================================== *)
(** * Glass panes of fixed and operable sashes                           *)
(* ===================================================================== *)

Module Glazing.
Import THREE ProfileSystem Window Spec.

Lemma isFixedAt_lookup (cfgs : list OpeningConfig) i c :
  cfgs !! i = Some c →
  isFixedAt (Some cfgs) i = bool_decide (type c = fixed).
Proof. intros H. unfold isFixedAt. simpl. by rewrite H. Qed.

(** C10.  Pane [i] of a window: when its opening kind is fixed the glass
    has the full width and height of its opening and no sash frame is
    rendered for it; otherwise the glass is narrower and lower by twice the
    sash profile width, so that it seats inside the sash frame, which is
    rendered. *)
Theorem glass_fills_fixed_opening
  (widthCm heightCm : R) (windowType : Z) (cfg : ProfileConfig)
  (glassThicknessMm : R) (cfgs : list OpeningConfig) (showOpeningViz : bool)
  (i : nat) (c : OpeningConfig) :
  (i < Z.to_nat windowType)%nat →
  cfgs !! i = Some c →
  let outerFw := JS.or_num (width cfg) 60 * mm in
  let innerWidth := widthCm * 10 * mm - outerFw * 2 in
  let innerHeight := heightCm * 10 * mm - outerFw * 2 in
  let sashWidth :=
    if (windowType =? 1)%Z then innerWidth else innerWidth / IZR windowType in
  let sashFw := outerFw * 0.7 in
  let glassGeometries :=
    createGlassPanes (widthCm * 10) (heightCm * 10) windowType cfg
                     glassThicknessMm (Some cfgs) in
  let rendered :=
    renderSash widthCm heightCm windowType cfg cfgs showOpeningViz
               glassGeometries i in
  ∃ glass,
    sr_glass rendered = Some glass
    ∧ (type c = fixed →
         box_width glass = sashWidth ∧ box_height glass = innerHeight
         ∧ sr_sashFrame rendered = false)
    ∧ (type c ≠ fixed →
         box_width glass = sashWidth - 2 * sashFw
         ∧ box_height glass = innerHeight - 2 * sashFw
         ∧ sr_sashFrame rendered = true).
Proof.
  intros Hi Hc outerFw innerWidth innerHeight sashWidth sashFw
         glassGeometries rendered.
  unfold rendered, renderSash, glassGeometries, createGlassPanes.
  cbn [sr_glass sr_sashFrame].
  rewrite Hc. cbn [fmap option_fmap option_map default].
  unfold sashWidth, innerWidth, innerHeight, sashFw, outerFw.
  destruct (Z.eqb_spec windowType 1) as [->|Hne].
  - assert (i = 0%nat) as -> by lia.
    eexists. split; [reflexivity|].
    cbn [box_width box_height].
    rewrite (isFixedAt_lookup _ _ _ Hc).
    destruct (decide (type c = fixed)) as [Hfix|Hfix].
    + rewrite !(bool_decide_eq_true_2 _ Hfix). simpl.
      split; [intros _; done|intros; done].
    + rewrite !(bool_decide_eq_false_2 _ Hfix). simpl.
      split; [intros; done|intros _; split_and!; [lra|lra|done]].
  - rewrite list_lookup_fmap, lookup_seq_lt by done.
    change (0 + i)%nat with i.
    eexists. split; [reflexivity|].
    cbn [box_width box_height].
    rewrite (isFixedAt_lookup _ _ _ Hc).
    destruct (decide (type c = fixed)) as [Hfix|Hfix].
    + rewrite !(bool_decide_eq_true_2 _ Hfix). simpl.
      split; [intros _; done|intros; done].
    + rewrite !(bool_decide_eq_false_2 _ Hfix). simpl.
      split; [intros; done|intros _; split_and!; [lra|lra|done]].
Qed.

Lemma glass_fills_fixed_opening_witness :
  let cfg := {| profileKey := "modern-slim"; width := 60; depth := Some 70;
                glassRebateDepth := Some 18; sightline := Some 35 |} in
  let cfgs := [ {| type := fixed |}; {| type := dreh_links |} ] in
  let rendered :=
    renderSash 100 120 2 cfg cfgs true
      (createGlassPanes (100 * 10) (120 * 10) 2 cfg 24 (Some cfgs)) 0 in
  ∃ glass,
    sr_glass rendered = Some glass
    ∧ box_width glass = (100 * 10 * mm - JS.or_num 60 60 * mm * 2) / 2
    ∧ box_height glass = 120 * 10 * mm - JS.or_num 60 60 * mm * 2
    ∧ sr_sashFrame rendered = false.
Proof.
  intros cfg cfgs rendered.
  destruct (glass_fills_fixed_opening 100 120 2 cfg 24 cfgs true 0
              {| type := fixed |}) as (glass & Hglass & Hfixed & _);
    [simpl; lia|reflexivity|].
  exists glass. split; [exact Hglass|]. by apply Hfixed.
Defined.

(** X29.  The glass size handed to the opening indicators agrees with the pane
    built by [createGlassPanes] whenever the profile width is not zero
    (only [createGlassPanes] falls back to 60 mm). *)
Lemma rendered_glass_size
  (widthCm heightCm : R) (windowType : Z) (cfg : ProfileConfig)
  (glassThicknessMm : R) (cfgs : list OpeningConfig) (showOpeningViz : bool)
  (i : nat) (c : OpeningConfig) (glass : BoxGeometry) :
  cfgs !! i = Some c →
  width cfg ≠ 0 →
  let rendered :=
    renderSash widthCm heightCm windowType cfg cfgs showOpeningViz
      (createGlassPanes (widthCm * 10) (heightCm * 10) windowType cfg
                        glassThicknessMm (Some cfgs)) i in
  sr_glass rendered = Some glass →
  box_width glass = sr_glassWidth rendered
  ∧ box_height glass = sr_glassHeight rendered.
Proof.
  intros Hc Hw rendered. unfold rendered, renderSash, createGlassPanes.
  cbn [sr_glass sr_glassWidth sr_glassHeight].
  rewrite Hc. cbn [fmap option_fmap option_map default].
  assert (JS.or_num (width cfg) 60 = width cfg) as ->.
  { unfold JS.or_num. by destruct (Req_dec_T (width cfg) 0). }
  destruct (Z.eqb_spec windowType 1) as [->|Hne].
  - destruct i as [|i]; [|by rewrite lookup_cons_ne_0, lookup_nil].
    intros [= <-]. cbn [box_width box_height].
    by rewrite (isFixedAt_lookup _ _ _ Hc).
  - rewrite list_lookup_fmap. intros Hg.
    destruct (seq 0 (Z.to_nat windowType) !! i) as [j|] eqn:Hj; [|done].
    apply lookup_seq in Hj as [-> _]. simpl in Hg. injection Hg as <-.
    cbn [box_width box_height]. by rewrite (isFixedAt_lookup _ _ _ Hc).
Qed.

End Glazing.


(* ===================================================================== *)
(** * Sash kinematics: targets and the smooth animation                  *)
(* ===================================================================== *)

Module Kinematics.
Import Window Spec.


Lemma animate_snap target current delta :
  Rabs (target - current) < 0.01 → animate target current delta = target.
Proof.
  intros H. unfold animate.
  by destruct (Rlt_dec (Rabs (target - current)) 0.01).
Qed.

Lemma animate_at_target target delta : animate target target delta = target.
Proof.
  apply animate_snap. replace (target - target) with 0 by lra.
  rewrite Rabs_R0. lra.
Qed.

Lemma animateN_S n target delta current :
  animateN (S n) target delta current
  = animate target (animateN n target delta current) delta.
Proof.
  revert current. induction n as [|n IH]; intros current; [done|].
  change (animateN (S (S n)) target delta current)
    with (animateN (S n) target delta (animate target current delta)).
  by rewrite IH.
Qed.

Section fixed_frame_time.
Variables (T dt : R).
Hypothesis dt_pos : 0 < 3 * dt.
Hypothesis dt_small : 3 * dt <= 1.

Local Abbreviation q := (1 - 3 * dt).

Lemma pow_q_range n : 0 <= q ^ n <= 1.
Proof using dt_pos dt_small.
  split; [apply pow_le; lra|].
  apply Rle_trans with (1 ^ n); [apply pow_incr; split; lra|].
  rewrite pow1. lra.
Qed.

(** Until it snaps, the remaining distance shrinks by the factor
    [1 - 3 dt] per frame. *)
Lemma animateN_closed_form n :
  animateN n T dt 0 = T ∨ animateN n T dt 0 = T * (1 - q ^ n).
Proof using dt_pos dt_small.
  induction n as [|n IH].
  - right. simpl. lra.
  - rewrite animateN_S. destruct IH as [-> | ->].
    + left. apply animate_at_target.
    + unfold animate.
      destruct (Rlt_dec _ _); [by left|right].
      simpl. ring.
Qed.

Lemma bernoulli n : q ^ n * (1 + INR n * (3 * dt)) <= 1.
Proof using dt_pos dt_small.
  induction n as [|n IH].
  - simpl. lra.
  - rewrite S_INR. pose proof (pow_q_range n) as [Hq0 Hq1].
    pose proof (pos_INR n) as Hn.
    assert (q * (1 + (INR n + 1) * (3 * dt)) <= 1 + INR n * (3 * dt))
      as Hstep by nra.
    change (q ^ S n) with (q * q ^ n). nra.
Qed.

Lemma remaining_small n :
  (Z.to_nat (up (100 * Rabs T / (3 * dt))) ≤ n)%nat →
  Rabs T * q ^ n < 0.01.
Proof using dt_pos dt_small.
  intros Hn. set (x := 100 * Rabs T / (3 * dt)) in *.
  assert (0 <= x) as Hx.
  { unfold x. apply Rmult_le_pos; [|left; by apply Rinv_0_lt_compat].
    pose proof (Rabs_pos T). lra. }
  assert (x < INR n) as Hxn.
  { destruct (archimed x) as [Hup _].
    apply Rlt_le_trans with (IZR (up x)); [lra|].
    rewrite <- (Z2Nat.id (up x)).
    - rewrite <- INR_IZR_INZ. by apply le_INR.
    - apply le_IZR. lra. }
  assert (100 * Rabs T < INR n * (3 * dt)) as Hk.
  { unfold x in Hxn. apply (Rmult_lt_compat_r (3 * dt)) in Hxn; [|done].
    replace (100 * Rabs T / (3 * dt) * (3 * dt)) with (100 * Rabs T)
      in Hxn by (field; lra).
    done. }
  pose proof (bernoulli n) as Hb. pose proof (pow_q_range n) as [Hq0 Hq1].
  pose proof (Rabs_pos T). nra.
Qed.

Lemma settled n : (settleFrames T dt ≤ n)%nat → animateN n T dt 0 = T.
Proof using dt_pos dt_small.
  unfold settleFrames. intros Hn.
  destruct n as [|n]; [lia|]. rewrite animateN_S.
  destruct (animateN_closed_form n) as [-> | ->].
  - apply animate_at_target.
  - apply animate_snap.
    replace (T - T * (1 - q ^ n)) with (T * q ^ n) by ring.
    rewrite Rabs_mult, (Rabs_right (q ^ n)).
    + apply remaining_small. lia.
    + apply Rle_ge, pow_q_range.
Qed.

Lemma no_overshoot n : between T (animateN n T dt 0).
Proof using dt_pos dt_small.
  unfold between. pose proof (pow_q_range n) as [Hq0 Hq1].
  destruct (animateN_closed_form n) as [-> | ->];
    destruct (Rle_dec 0 T); nra.
Qed.

End fixed_frame_time.




Lemma targetRotation_spec cfgs modes index c :
  cfgs !! index = Some c →
  targetRotation cfgs modes true index
  = spec_target (type c) (default dreh (JS.get modes index)).
Proof.
  intros Hc. unfold targetRotation. rewrite Hc. simpl.
  destruct (type c); simpl; try lra;
    destruct (default dreh (JS.get modes index));
    simpl; try lra; by destruct (decide _).
Qed.

Lemma useFrame_rotation cfgs delta st index current :
  JS.get (sashRotations st) index = Some current →
  JS.get (sashRotations (useFrame cfgs delta st)) index
  = Some (animate
            (default 0
               ((λ isOpen, targetRotation cfgs (sashModes st) isOpen index)
                  <$> JS.get (sashOpenStates st) index))
            current delta).
Proof.
  intros Hrot. unfold useFrame.
  pose proof (get_Some_length _ _ _ Hrot) as Hlen.
  destruct (Nat.eqb_spec (length (sashRotations st)) 0); [lia|].
  cbn [sashRotations]. rewrite get_map, Hrot. simpl. f_equal. f_equal.
  rewrite get_map. destruct (JS.get (sashOpenStates st) index); simpl; [|done].
  apply or_num_zero.
Qed.

(** C4.  For an open sash the target angle follows from its opening kind:
    tilt pi/16, turn-left -0.6 pi, turn-right +0.6 pi, fixed 0, and for
    the two tilt-turn kinds the tilt target in mode tilt and the turn
    target (-0.6 pi, +0.6 pi) in mode turn; this is the target the
    animation frame steers the angle of the sash to. *)
Theorem open_sash_target
  (cfgs : list OpeningConfig) (st : State) (delta : R)
  (index : nat) (c : OpeningConfig) (current : R) :
  JS.get (sashOpenStates st) index = Some true →
  cfgs !! index = Some c →
  JS.get (sashRotations st) index = Some current →
  let mode := default dreh (JS.get (sashModes st) index) in
  targetRotation cfgs (sashModes st) true index = spec_target (type c) mode
  ∧ JS.get (sashRotations (useFrame cfgs delta st)) index
    = Some (animate (spec_target (type c) mode) current delta).
Proof.
  intros Hopen Hc Hrot mode.
  split; [by apply targetRotation_spec|].
  rewrite (useFrame_rotation _ _ _ _ _ Hrot), Hopen. simpl.
  by rewrite (targetRotation_spec _ _ _ _ Hc).
Qed.

Lemma open_sash_target_witness :
  let st := {| sashOpenStates := [Some true]; sashRotations := [Some 0];
               sashModes := [Some kipp_mode]; timeouts := [] |} in
  let cfgs := [ {| type := dreh_kipp_links |} ] in
  targetRotation cfgs (sashModes st) true 0 = PI / 16
  ∧ JS.get (sashRotations (useFrame cfgs (1 / 60) st)) 0
    = Some (animate (PI / 16) 0 (1 / 60)).
Proof.
  intros st cfgs.
  apply (open_sash_target cfgs st (1 / 60) 0 {| type := dreh_kipp_links |} 0);
    reflexivity.
Defined.

End Kinematics.


(* ===================================================================== *)
(** * The open/close handler, its timer and the fixed sash               *)
(* ===================================================================== *)

Module SashToggle.
Import Window Spec.

(** ** The reopen callbacks *)

Lemma foldl_reopen_frame st l :
  sashRotations (foldl reopen st l) = sashRotations st
  ∧ sashModes (foldl reopen st l) = sashModes st
  ∧ timeouts (foldl reopen st l) = timeouts st.
Proof.
  revert st. induction l as [|i l IH]; intros st; [done|].
  simpl. destruct (IH (reopen st i)) as (-> & -> & ->). done.
Qed.

Lemma foldl_reopen_open st l index :
  index ∈ l ∨ JS.get (sashOpenStates st) index = Some true →
  JS.get (sashOpenStates (foldl reopen st l)) index = Some true.
Proof.
  revert st. induction l as [|i l IH]; intros st H.
  - destruct H as [H|H]; [by apply elem_of_nil in H|done].
  - simpl. apply IH.
    destruct (decide (i = index)) as [->|Hne].
    + right. apply get_set_eq.
    + destruct H as [H|H].
      * apply elem_of_cons in H as [->|H]; [done|by left].
      * right. simpl. by rewrite get_set_ne.
Qed.

Lemma elapse_rotations ms st :
  sashRotations (elapse ms st) = sashRotations st.
Proof. unfold elapse. by rewrite (proj1 (foldl_reopen_frame _ _)). Qed.

Lemma elapse_modes ms st : sashModes (elapse ms st) = sashModes st.
Proof.
  unfold elapse. by rewrite (proj1 (proj2 (foldl_reopen_frame _ _))).
Qed.

Lemma elapse_due_opens ms st delay index :
  (delay, index) ∈ timeouts st → (delay ≤ ms)%nat →
  JS.get (sashOpenStates (elapse ms st)) index = Some true.
Proof.
  intros Hin Hle. unfold elapse. apply foldl_reopen_open. left.
  apply list_elem_of_fmap. exists (delay, index). split; [done|].
  apply list_elem_of_filter. done.
Qed.

(** ** Frames *)

Lemma useFrame_frame cfgs delta st :
  sashOpenStates (useFrame cfgs delta st) = sashOpenStates st
  ∧ sashModes (useFrame cfgs delta st) = sashModes st
  ∧ timeouts (useFrame cfgs delta st) = timeouts st.
Proof. unfold useFrame. by destruct (_ =? _)%nat. Qed.

Lemma useFrame_rests cfgs delta st index :
  JS.get (sashRotations st) index = Some 0 →
  (∀ isOpen, JS.get (sashOpenStates st) index = Some isOpen →
             targetRotation cfgs (sashModes st) isOpen index = 0) →
  JS.get (sashRotations (useFrame cfgs delta st)) index = Some 0.
Proof.
  intros Hrot Htarget. rewrite (Kinematics.useFrame_rotation _ _ _ _ _ Hrot).
  destruct (JS.get (sashOpenStates st) index) as [isOpen|] eqn:Hopen; simpl.
  - rewrite (Htarget isOpen eq_refl). by rewrite Kinematics.animate_at_target.
  - by rewrite Kinematics.animate_at_target.
Qed.

Lemma targetRotation_closed cfgs modes index :
  targetRotation cfgs modes false index = 0.
Proof. done. Qed.


(** Frames alone leave a closed sash closed and at rest. *)
Lemma frames_keep_closed cfgs deltas st index :
  JS.get (sashOpenStates st) index = Some false →
  JS.get (sashRotations st) index = Some 0 →
  JS.get (sashOpenStates (run cfgs (Frame <$> deltas) st)) index = Some false
  ∧ JS.get (sashRotations (run cfgs (Frame <$> deltas) st)) index = Some 0
  ∧ sashModes (run cfgs (Frame <$> deltas) st) = sashModes st
  ∧ timeouts (run cfgs (Frame <$> deltas) st) = timeouts st.
Proof.
  revert st. induction deltas as [|delta deltas IH]; intros st Hopen Hrot;
    [done|].
  change (run cfgs (Frame <$> delta :: deltas) st)
    with (run cfgs (Frame <$> deltas) (useFrame cfgs delta st)).
  destruct (useFrame_frame cfgs delta st) as (Ho & Hm & Ht).
  destruct (IH (useFrame cfgs delta st)) as (IH1 & IH2 & IH3 & IH4).
  - by rewrite Ho.
  - apply useFrame_rests; [done|]. intros isOpen His.
    rewrite Hopen in His. injection His as <-. apply targetRotation_closed.
  - rewrite IH3, IH4, Hm, Ht. done.
Qed.

(** ** The handler *)

Lemma handle_switch index isOpen mode st :
  default false (JS.get (sashOpenStates st) index) = true →
  default dreh (JS.get (sashModes st) index) ≠ mode →
  handleSashOpenChange index isOpen mode st
  = {| sashRotations := JS.set index 0 (sashRotations st);
       sashModes := JS.set index mode (sashModes st);
       sashOpenStates := JS.set index false (sashOpenStates st);
       timeouts := timeouts st ++ [(50%nat, index)] |}.
Proof.
  intros Hopen Hmode. unfold handleSashOpenChange.
  by rewrite Hopen, (bool_decide_eq_true_2 _ Hmode).
Qed.

Lemma handle_plain index isOpen mode st :
  ¬ (default false (JS.get (sashOpenStates st) index) = true
     ∧ default dreh (JS.get (sashModes st) index) ≠ mode) →
  handleSashOpenChange index isOpen mode st
  = {| sashOpenStates := JS.set index isOpen (sashOpenStates st);
       sashModes := JS.set index mode (sashModes st);
       sashRotations := sashRotations st;
       timeouts := timeouts st |}.
Proof.
  intros Hno. unfold handleSashOpenChange.
  destruct (default false _) eqn:Hopen; [|done].
  case_bool_decide as Hmode; [|done]. by destruct Hno.
Qed.

Lemma handle_timeouts index isOpen mode st t :
  t ∈ timeouts st → t ∈ timeouts (handleSashOpenChange index isOpen mode st).
Proof.
  intros Hin. unfold handleSashOpenChange.
  destruct (_ && _); simpl; [|done].
  apply elem_of_app. by left.
Qed.

Lemma handle_mode index isOpen mode st :
  JS.get (sashModes (handleSashOpenChange index isOpen mode st)) index
  = Some mode.
Proof.
  unfold handleSashOpenChange. destruct (_ && _); simpl; apply get_set_eq.
Qed.

Lemma untimed_keep_timeouts cfgs events st t :
  Forall untimed events → t ∈ timeouts st →
  t ∈ timeouts (run cfgs events st).
Proof.
  intros Hev. revert st. induction Hev as [|e events He _ IH]; intros st Hin;
    [done|].
  unfold run in *. simpl. apply IH.
  destruct e as [i o m|delta|ms]; simpl.
  - by apply handle_timeouts.
  - by rewrite (proj2 (proj2 (useFrame_frame _ _ _))).
  - done.
Qed.

Lemma run_app cfgs events1 events2 st :
  run cfgs (events1 ++ events2) st = run cfgs events2 (run cfgs events1 st).
Proof. unfold run. by rewrite foldl_app. Qed.

(** C5 (as amended).  When a sash is open and the other mode is
    requested, the handler at once resets the angle to 0, marks the sash
    closed, switches the mode and registers a reopen 50 ms ahead.  Frames
    alone never reopen the sash: it stays closed at angle 0, so the new
    target is not active until the sash is reopened.  Once 50 ms of
    wall-clock time have passed the registered callback sets the sash
    open, whatever toggles and frames occurred in between: a second toggle
    does not cancel the pending reopen. *)
Theorem mode_switch_closes_then_timer_reopens
  (cfgs : list OpeningConfig) (st : State)
  (index : nat) (isOpen : bool) (mode : Mode) :
  default false (JS.get (sashOpenStates st) index) = true →
  default dreh (JS.get (sashModes st) index) ≠ mode →
  let st1 := handleSashOpenChange index isOpen mode st in
  (JS.get (sashRotations st1) index = Some 0
   ∧ JS.get (sashOpenStates st1) index = Some false
   ∧ JS.get (sashModes st1) index = Some mode
   ∧ timeouts st1 = timeouts st ++ [(50%nat, index)])
  ∧ (∀ deltas,
       let st2 := run cfgs (Frame <$> deltas) st1 in
       JS.get (sashOpenStates st2) index = Some false
       ∧ JS.get (sashRotations st2) index = Some 0
       ∧ ∀ ms, (50 ≤ ms)%nat →
           JS.get (sashOpenStates (elapse ms st2)) index = Some true
           ∧ JS.get (sashRotations (elapse ms st2)) index = Some 0
           ∧ JS.get (sashModes (elapse ms st2)) index = Some mode)
  ∧ (∀ events ms,
       Forall untimed events → (50 ≤ ms)%nat →
       JS.get (sashOpenStates (run cfgs (events ++ [Elapse ms]) st1)) index
       = Some true).
Proof.
  intros Hopen Hmode st1. unfold st1. rewrite (handle_switch _ _ _ _ Hopen Hmode).
  set (s1 := {| sashRotations := _ |}).
  assert (JS.get (sashRotations s1) index = Some 0) as Hrot1
    by apply get_set_eq.
  assert (JS.get (sashOpenStates s1) index = Some false) as Hopen1
    by apply get_set_eq.
  assert (JS.get (sashModes s1) index = Some mode) as Hmode1
    by apply get_set_eq.
  assert ((50%nat, index) ∈ timeouts s1) as Htimer.
  { simpl. apply elem_of_app. right. apply list_elem_of_singleton. done. }
  split; [done|]. split.
  - intros deltas. cbv zeta.
    destruct (frames_keep_closed cfgs deltas s1 index Hopen1 Hrot1)
      as (Ho & Hr & Hm & Ht).
    split; [done|]. split; [done|]. intros ms Hms.
    rewrite elapse_rotations, elapse_modes, Hm.
    split; [|done]. apply (elapse_due_opens ms _ 50); [|done].
    by rewrite Ht.
  - intros events ms Hev Hms. rewrite run_app.
    change (run cfgs [Elapse ms] ?s) with (elapse ms s).
    apply (elapse_due_opens _ _ 50); [|done].
    by apply untimed_keep_timeouts.
Qed.

Lemma mode_switch_closes_then_timer_reopens_witness :
  let cfgs := [ {| type := dreh_kipp_links |} ] in
  let st := {| sashOpenStates := [Some true];
               sashRotations := [Some (- PI * 0.6)];
               sashModes := [Some dreh]; timeouts := [] |} in
  let st1 := handleSashOpenChange 0 true kipp_mode st in
  JS.get (sashRotations st1) 0 = Some 0
  ∧ JS.get (sashOpenStates st1) 0 = Some false
  ∧ JS.get (sashModes st1) 0 = Some kipp_mode
  ∧ timeouts st1 = [(50%nat, 0%nat)].
Proof.
  intros cfgs st st1.
  apply (mode_switch_closes_then_timer_reopens cfgs st 0 true kipp_mode);
    [reflexivity|discriminate].
Defined.

(** A close request that arrives while the reopen is pending is undone by
    the timer: the sash ends up open. *)
Lemma second_toggle_does_not_supersede :
  let cfgs := [ {| type := dreh_kipp_links |} ] in
  let st := {| sashOpenStates := [Some true];
               sashRotations := [Some (- PI * 0.6)];
               sashModes := [Some dreh]; timeouts := [] |} in
  JS.get (sashOpenStates
            (run cfgs [Toggle 0 true kipp_mode; Toggle 0 false kipp_mode;
                       Elapse 50] st)) 0 = Some true
  ∧ ¬ mode_switch_as_specified cfgs st 0 kipp_mode.
Proof.
  intros cfgs st. split; [reflexivity|].
  intros (_ & _ & H). specialize (H false kipp_mode 50%nat).
  discriminate H.
Qed.

(** ** The fixed sash *)





End SashToggle.


(* ===================================================================== *)
(** * Mullion placement                                                  *)
(* ===================================================================== *)

Module Mullions.
Import Window Spec.

Lemma pfostenNeeds_lookup cfgs windowType p1 p2 needs i :
  pfostenNeeds cfgs windowType p1 p2 = Some needs →
  (i < Z.to_nat (windowType - 1))%nat →
  ∃ leftSash rightSash,
    cfgs !! i = Some leftSash
    ∧ cfgs !! (i + 1)%nat = Some rightSash
    ∧ needs !! i
      = Some (pfostenRequired leftSash rightSash
                              (if (i =? 0)%nat then p1 else p2)).
Proof.
  unfold pfostenNeeds. intros Hneeds Hi.
  apply mapM_Some in Hneeds.
  assert (seq 0 (Z.to_nat (windowType - 1)) !! i = Some i) as Hseq
    by by apply lookup_seq_lt.
  destruct (Forall2_lookup_l _ _ _ _ _ Hneeds Hseq) as (b & Hb & Hf).
  destruct (cfgs !! i) as [l|]; [|done].
  destruct (cfgs !! (i + 1)%nat) as [r|]; [|done].
  simpl in Hf. injection Hf as <-. by exists l, r.
Qed.

(** C6 (as amended).  At every boundary the automatic rule applies unless
    the override is no or yes.  Two adjacent tilt-turn-left sashes require
    a mullion under the automatic rule.  A boundary whose left sash is
    turn-right and whose right sash is turn-left requires one too, unless
    the override is no.  The boundary that requires none, unless the
    override is yes, has a turn-left sash on its left and a turn-right
    sash on its right. *)
Theorem mullion_rule
  (cfgs : list OpeningConfig) (windowType : Z)
  (pfosten1Choice pfosten2Choice : JS.int)
  (needs : list bool) (i : nat) :
  pfostenNeeds cfgs windowType pfosten1Choice pfosten2Choice = Some needs →
  (i < Z.to_nat (windowType - 1))%nat →
  let manualSetting :=
    if (i =? 0)%nat then pfosten1Choice else pfosten2Choice in
  ∃ leftSash rightSash required,
    cfgs !! i = Some leftSash
    ∧ cfgs !! (i + 1)%nat = Some rightSash
    ∧ needs !! i = Some required
    ∧ (type leftSash = dreh_kipp_links → type rightSash = dreh_kipp_links →
       JS.eqb manualSetting 1 = false → required = true)
    ∧ (type leftSash = dreh_rechts → type rightSash = dreh_links →
       required = negb (JS.eqb manualSetting 1))
    ∧ (type leftSash = dreh_links → type rightSash = dreh_rechts →
       required = JS.eqb manualSetting 2).
Proof.
  intros Hneeds Hi manualSetting.
  destruct (pfostenNeeds_lookup _ _ _ _ _ _ Hneeds Hi)
    as (l & r & Hl & Hr & Hn).
  exists l, r, (pfostenRequired l r manualSetting).
  do 3 (split; [done|]). clearbody manualSetting.
  split_and!; unfold pfostenRequired.
  - intros -> -> Hauto. destruct manualSetting as [z|]; simpl in *; [|done].
    rewrite Hauto. by destruct (z =? 2)%Z.
  - intros -> ->. destruct manualSetting as [z|]; simpl; [|done].
    destruct (z =? 1)%Z; [done|]. by destruct (z =? 2)%Z.
  - intros -> ->. destruct manualSetting as [z|]; simpl; [|done].
    destruct (Z.eqb_spec z 1) as [->|]; [done|].
    by destruct (z =? 2)%Z.
Qed.

Lemma mullion_rule_witness :
  let cfgs := openingConfigs 3 (Some 5%Z) (Some 5%Z) (Some 4%Z) in
  ∃ leftSash rightSash required,
    cfgs !! 0%nat = Some leftSash
    ∧ cfgs !! 1%nat = Some rightSash
    ∧ [true; true] !! 0%nat = Some required
    ∧ (type leftSash = dreh_kipp_links → type rightSash = dreh_kipp_links →
       JS.eqb (Some 0%Z) 1 = false → required = true)
    ∧ (type leftSash = dreh_rechts → type rightSash = dreh_links →
       required = negb (JS.eqb (Some 0%Z) 1))
    ∧ (type leftSash = dreh_links → type rightSash = dreh_rechts →
       required = JS.eqb (Some 0%Z) 2).
Proof.
  intros cfgs.
  apply (mullion_rule cfgs 3 (Some 0%Z) (Some 0%Z) [true; true] 0);
    [reflexivity|simpl; lia].
Defined.

(** A turn-right sash on the left of a turn-left sash: both hinge on the
    shared boundary, and the automatic rule asks for a mullion there. *)
Lemma hinges_on_boundary_need_mullion :
  pfostenNeeds (openingConfigs 2 (Some 4%Z) (Some 3%Z) (Some 5%Z)) 2
               (Some 0%Z) (Some 0%Z) = Some [true]
  ∧ ¬ mullion_rule_as_specified (Some 0%Z).
Proof.
  split; [reflexivity|]. intros [_ H]. discriminate H.
Qed.

End Mullions.

(* ===================================================================== *)
(** * Fallbacks for unmapped choices                                     *)
(* ===================================================================== *)

Module Fallbacks.
Import THREE ProfileSystem Window Spec.

Lemma index_unmapped {A} (table : list A) (choice : JS.int) :
  unmapped (Z.of_nat (length table)) choice →
  JS.index table (JS.pred choice) = None.
Proof.
  destruct choice as [z|]; simpl; [|done]. intros Hz.
  destruct (Z.ltb_spec (z - 1) 0); [done|].
  apply lookup_ge_None_2. lia.
Qed.

Lemma profileConfigOf_total profileChoice :
  is_Some (profileConfigOf profileChoice).
Proof.
  unfold profileConfigOf, profileKeyOf.
  destruct (JS.index profileKeys (JS.pred profileChoice)) as [key|] eqn:Hkey;
    [|by eexists].
  destruct profileChoice as [z|]; simpl in Hkey; [|done].
  destruct (z - 1 <? 0)%Z; [done|].
  destruct (Z.to_nat (z - 1)) as [|[|[|[|n]]]]; simpl in Hkey;
    try (injection Hkey as <-; by eexists).
  done.
Qed.

Lemma openingConfigs_lookup windowType s1 s2 s3 i :
  (i < Z.to_nat windowType)%nat →
  openingConfigs windowType s1 s2 s3 !! i
  = Some {| type := default fixed
                      (JS.index openingTypes
                                (JS.pred (mjoin ([s1; s2; s3] !! i)))) |}.
Proof.
  intros Hi. unfold openingConfigs.
  by rewrite list_lookup_fmap, lookup_seq_lt.
Qed.

Lemma openingConfigs_length windowType s1 s2 s3 :
  length (openingConfigs windowType s1 s2 s3) = Z.to_nat windowType.
Proof. unfold openingConfigs. by rewrite length_fmap, length_seq. Qed.

Lemma pfostenNeeds_total windowType s1 s2 s3 p1 p2 :
  is_Some (pfostenNeeds (openingConfigs windowType s1 s2 s3) windowType p1 p2).
Proof.
  unfold pfostenNeeds. apply mapM_is_Some. apply Forall_forall.
  intros i Hi. apply elem_of_seq in Hi as [_ Hi]. cbn [compose].
  rewrite !openingConfigs_lookup by lia. by eexists.
Qed.

Lemma createGlassPanes_length W H windowType cfg t cfgs :
  length (createGlassPanes W H windowType cfg t cfgs) = Z.to_nat windowType.
Proof.
  unfold createGlassPanes. destruct (Z.eqb_spec windowType 1) as [->|_];
    [done|]. by rewrite length_fmap, length_seq.
Qed.

(** C8.  A profile choice outside the range 1..4 of the library selects
    the default entry (modern-slim), and a sash choice outside the range
    1..6 selects the fixed kind.  Whatever the choices are, a profile is
    found, the outer frame has its four segments, every sash has an
    opening kind, a pane of glass and a sash frame geometry, and the
    mullion rule yields a value for every boundary; the other sashes keep
    the kind their own choice selects. *)
Theorem unmapped_choices_fall_back
  (widthCm heightCm : R) (windowType : Z)
  (profileChoice s1 s2 s3 p1 p2 : JS.int) (i : nat) :
  (i < Z.to_nat windowType)%nat →
  let choice := mjoin ([s1; s2; s3] !! i) in
  let cfgs := openingConfigs windowType s1 s2 s3 in
  (unmapped 4 profileChoice →
     profileKeyOf profileChoice = "modern-slim"
     ∧ profileConfigOf profileChoice = PROFILE_LIBRARY !! "modern-slim")
  ∧ (unmapped 6 choice → cfgs !! i = Some {| type := fixed |})
  ∧ ∃ cfg frameData,
      profileConfigOf profileChoice = Some cfg
      ∧ is_Some (PROFILE_LIBRARY !! "modern-slim")
      ∧ frameData
        = createCompleteFrame (widthCm * 10) (heightCm * 10) windowType cfg
      ∧ length (outerFrameSegments frameData) = 4%nat
      ∧ length (sashFrameSegments frameData) = Z.to_nat windowType
      ∧ length cfgs = Z.to_nat windowType
      ∧ length (createGlassPanes (widthCm * 10) (heightCm * 10) windowType
                                 cfg 24 (Some cfgs))
        = Z.to_nat windowType
      ∧ is_Some (pfostenNeeds cfgs windowType p1 p2)
      ∧ ∀ j, (j < Z.to_nat windowType)%nat →
             cfgs !! j
             = Some {| type :=
                         default fixed
                           (JS.index openingTypes
                              (JS.pred (mjoin ([s1; s2; s3] !! j)))) |}.
Proof.
  intros Hi choice cfgs. split_and!.
  - intros Hun. unfold profileConfigOf, profileKeyOf.
    by rewrite (index_unmapped profileKeys profileChoice Hun).
  - intros Hun. unfold cfgs. rewrite openingConfigs_lookup by done.
    fold choice. by rewrite (index_unmapped openingTypes choice Hun).
  - destruct (profileConfigOf_total profileChoice) as [cfg Hcfg].
    exists cfg, (createCompleteFrame (widthCm * 10) (heightCm * 10)
                                    windowType cfg).
    split_and!; [done|by eexists|done|done| | | | |].
    + unfold createCompleteFrame. cbn [sashFrameSegments].
      destruct (Z.eqb_spec windowType 1) as [->|_]; [done|].
      by rewrite length_fmap, length_seq.
    + apply openingConfigs_length.
    + apply createGlassPanes_length.
    + apply pfostenNeeds_total.
    + intros j Hj. by apply openingConfigs_lookup.
Qed.

Lemma unmapped_choices_fall_back_witness :
  let cfgs := openingConfigs 2 (Some 9%Z) (Some 3%Z) None in
  profileKeyOf (Some 7%Z) = "modern-slim"
  ∧ cfgs !! 0%nat = Some {| type := fixed |}
  ∧ cfgs !! 1%nat = Some {| type := dreh_links |}.
Proof.
  intros cfgs.
  destruct (unmapped_choices_fall_back 100 120 2 (Some 7%Z) (Some 9%Z)
              (Some 3%Z) None (Some 0%Z) (Some 0%Z) 0)
    as (Hprofile & Hsash & cfg & frameData & _ & _ & _ & _ & _ & _ & _ & _
        & Hothers);
    [simpl; lia|].
  split; [apply Hprofile; simpl; lia|].
  split; [apply Hsash; simpl; lia|].
  apply (Hothers 1%nat). simpl. lia.
Defined.

End Fallbacks.


(* ===================================================================== *)
(** * Mullions and sash openings across the window                       *)
(* ===================================================================== *)

Module Layout.
Import THREE ProfileSystem Window Spec.

Lemma euler_pfosten p :
  applyEuler (vec3 (- PI / 2) 0 0) p = vec3 (vx p) (vz p) (- vy p).
Proof.
  unfold applyEuler; simpl. rewrite FrameRing.neg_half_PI.
  rewrite cos_neg, sin_neg, cos_PI2, sin_PI2, cos_0, sin_0.
  f_equal; ring.
Qed.

Lemma place_pfosten xPos h d x y z :
  placeVertex (getPfostenTransform xPos h d) (vec3 x y z)
  = vec3 (xPos + x) (- h / 2 + z) (d / 2 - y).
Proof.
  unfold placeVertex; simpl. rewrite euler_pfosten.
  unfold add; simpl. f_equal; lra.
Qed.

(** X1.  Every mullion stands between the inner faces of the bottom and the
    top frame segment, its ends on them, and occupies the depth of the
    outer frame. *)
Theorem mullion_fits_frame
  (heightCm : R) (windowType : Z) (cfg : ProfileConfig)
  (profileDepth : R) (positions : list R) :
  depth cfg = Some profileDepth →
  windowType ≠ 1%Z →
  let H := heightCm * 10 * mm in
  let pw := width cfg * mm in
  let d := profileDepth * mm in
  ∃ geometry meshes,
    pfostenGeometry heightCm windowType cfg = Some geometry
    ∧ eg_depth geometry = H - 2 * pw
    ∧ renderPfosten heightCm cfg (Some geometry) positions = Some meshes
    ∧ length meshes = length positions
    ∧ ∀ i g t xPos,
        meshes !! i = Some (g, t) → positions !! i = Some xPos →
        g = geometry
        ∧ ∀ x y z,
            let p := placeVertex t (vec3 x y z) in
            vx p = xPos + x
            ∧ (z = 0 → vy p = - H / 2 + pw)
            ∧ (z = eg_depth g → vy p = H / 2 - pw)
            ∧ (0 <= z <= eg_depth g → - H / 2 + pw <= vy p <= H / 2 - pw)
            ∧ (0 <= y <= d → - d / 2 <= vz p <= d / 2).
Proof.
  intros Hd Hwt H pw d.
  unfold pfostenGeometry. destruct (Z.eqb_spec windowType 1); [done|].
  eexists _, _. split; [reflexivity|].
  split; [unfold createPfosten; simpl; unfold H, pw, mm; lra|].
  unfold renderPfosten. rewrite Hd. cbn [mbind option_bind].
  split; [reflexivity|]. split; [by rewrite length_fmap|].
  intros i g t xPos Hm Hp. rewrite list_lookup_fmap, Hp in Hm.
  cbn [fmap option_fmap option_map] in Hm. injection Hm as <- <-.
  split; [done|].
  intros x y z. cbv zeta. rewrite place_pfosten.
  cbn [vx vy vz eg_depth createPfosten].
  unfold H, pw, d, mm. split_and!; intros; lra.
Qed.

Lemma mullion_fits_frame_witness :
  let cfg := {| profileKey := "modern-slim"; width := 60; depth := Some 70;
                glassRebateDepth := Some 18; sightline := Some 35 |} in
  ∃ geometry meshes,
    pfostenGeometry 120 2 cfg = Some geometry
    ∧ eg_depth geometry = 120 * 10 * mm - 2 * (60 * mm)
    ∧ renderPfosten 120 cfg (Some geometry) [0] = Some meshes
    ∧ length meshes = 1%nat.
Proof.
  intros cfg.
  destruct (mullion_fits_frame 120 2 cfg 70 [0])
    as (geometry & meshes & H1 & H2 & H3 & H4 & _); [reflexivity|lia|].
  by exists geometry, meshes.
Defined.

Lemma imap_omap_elem {A} (g : nat → bool → option A) (l : list bool) x :
  x ∈ omap (λ pos : option A, pos) (imap g l)
  ↔ ∃ i b, l !! i = Some b ∧ g i b = Some x.
Proof.
  rewrite list_elem_of_omap. split.
  - intros (o & Ho & Hx). apply list_elem_of_lookup in Ho as [i Hi].
    rewrite list_lookup_imap in Hi.
    destruct (l !! i) as [b|] eqn:Hb; [|done]. simpl in Hi.
    injection Hi as <-. by exists i, b.
  - intros (i & b & Hb & Hg). exists (Some x). split; [|done].
    apply list_elem_of_lookup. exists i.
    by rewrite list_lookup_imap, Hb; simpl; rewrite Hg.
Qed.

Lemma imap_omap_length {A} (g : nat → bool → option A) (l : list bool) :
  (∀ i b, is_Some (g i b) ↔ b = true) →
  length (omap (λ pos : option A, pos) (imap g l))
  = length (filter (λ b, b = true) l).
Proof.
  revert g. induction l as [|b l IH]; intros g Hg; [done|].
  rewrite imap_cons. simpl. rewrite filter_cons.
  destruct (g 0%nat b) as [x|] eqn:Hx.
  - assert (b = true) as -> by (apply (Hg 0%nat); by rewrite Hx).
    rewrite decide_True by done. simpl. f_equal.
    apply IH. intros i b'. apply Hg.
  - assert (b ≠ true) as Hb.
    { intros ->. destruct (proj2 (Hg 0%nat true) eq_refl) as [? Hs].
      by rewrite Hx in Hs. }
    rewrite decide_False by done. apply IH. intros i b'. apply Hg.
Qed.

(** X2.  A single pane has no mullion.  Otherwise a mullion is placed for
    exactly the boundaries that need one, each on the edge that the two
    sash openings next to it share. *)
Theorem mullions_on_sash_boundaries
  (needs : list bool) (widthCm : R) (windowType : Z) (cfg : ProfileConfig) :
  let innerWidth := widthCm * 10 * mm - width cfg * mm * 2 in
  let sashWidth := innerWidth / IZR windowType in
  let positions := pfostenPositions needs widthCm windowType cfg in
  (windowType = 1%Z → positions = [])
  ∧ (windowType ≠ 1%Z →
     length positions = length (filter (λ b, b = true) needs)
     ∧ ∀ x, x ∈ positions ↔
            ∃ i, needs !! i = Some true
                 ∧ x = baseSashX innerWidth sashWidth windowType i
                       + sashWidth / 2
                 ∧ x = baseSashX innerWidth sashWidth windowType (S i)
                       - sashWidth / 2).
Proof.
  intros innerWidth sashWidth positions. unfold positions, pfostenPositions.
  split; [by intros ->|]. intros Hwt.
  destruct (Z.eqb_spec windowType 1) as [|_]; [done|].
  fold innerWidth sashWidth. split.
  - apply imap_omap_length. by intros i [|]; split; try done; intros [].
  - intros x. rewrite imap_omap_elem. unfold baseSashX.
    destruct (Z.eqb_spec windowType 1) as [|_]; [done|].
    split.
    + intros (i & [|] & Hi & Hx); [|done]. injection Hx as <-.
      exists i. rewrite S_INR. split_and!; [done|lra..].
    + intros (i & Hi & -> & _). exists i, true. split; [done|].
      f_equal. lra.
Qed.

(** X3.  The sash openings tile the inner width: the first starts and the last
    ends on the inner faces of the frame, and each ends where the next
    starts. *)
Theorem sash_openings_tile
  (innerWidth : R) (windowType : Z) (index : nat) :
  (1 <= windowType)%Z →
  let sashWidth :=
    if (windowType =? 1)%Z then innerWidth
    else innerWidth / IZR windowType in
  let centre := baseSashX innerWidth sashWidth windowType in
  centre 0%nat - sashWidth / 2 = - innerWidth / 2
  ∧ centre (Z.to_nat windowType - 1)%nat + sashWidth / 2 = innerWidth / 2
  ∧ (windowType ≠ 1%Z →
     centre index + sashWidth / 2 = centre (S index) - sashWidth / 2).
Proof.
  intros Hwt sashWidth centre. unfold centre, baseSashX, sashWidth.
  destruct (Z.eqb_spec windowType 1) as [->|Hne].
  - split_and!; [lra|lra|done].
  - assert (INR (Z.to_nat windowType - 1) = IZR windowType - 1) as ->.
    { rewrite minus_INR by lia. rewrite INR_IZR_INZ, Z2Nat.id by lia.
      simpl. lra. }
    assert (IZR windowType ≠ 0) as Hnz.
    { apply not_0_IZR. lia. }
    rewrite S_INR. split_and!; [simpl; lra| field; done | intros _; lra].
Qed.

Lemma sash_openings_tile_witness :
  baseSashX 0.88 (0.88 / IZR 2) 2 0 - 0.88 / IZR 2 / 2 = - 0.88 / 2
  ∧ baseSashX 0.88 (0.88 / IZR 2) 2 1 + 0.88 / IZR 2 / 2 = 0.88 / 2.
Proof.
  destruct (sash_openings_tile 0.88 2 0) as (H1 & H2 & _); [lia|].
  simpl in H1, H2. split; lra.
Defined.

End Layout.


(* ===================================================================== *)
(** * Hinges: where a sash rests and what it pivots about                *)
(* ===================================================================== *)

Module Hinges.
Import THREE ProfileSystem Window Spec.

Lemma euler_about_x θ p :
  applyEuler (vec3 θ 0 0) p
  = vec3 (vx p) (cos θ * vy p - sin θ * vz p) (sin θ * vy p + cos θ * vz p).
Proof.
  unfold applyEuler; simpl. rewrite cos_0, sin_0. f_equal; ring.
Qed.

Lemma euler_about_y θ p :
  applyEuler (vec3 0 θ 0) p
  = vec3 (cos θ * vx p + sin θ * vz p) (vy p)
         (cos θ * vz p - sin θ * vx p).
Proof.
  unfold applyEuler; simpl. rewrite cos_0, sin_0. f_equal; ring.
Qed.

Lemma euler_none p : applyEuler (vec3 0 0 0) p = p.
Proof.
  unfold applyEuler; simpl. rewrite cos_0, sin_0. destruct p; simpl.
  f_equal; ring.
Qed.

(** X4.  Whatever the opening kind and mode, the hinge and the offset of the
    sash add up to the centre of its opening, so a sash at angle 0 sits
    centred in its opening; and whatever the angle, the points of the
    hinged edge stay where they are: the sash pivots about that edge. *)
Theorem sash_pivots_about_hinge_edge
  (widthCm heightCm : R) (windowType : Z) (cfg : ProfileConfig)
  (cfgs : list OpeningConfig) (st : State) (index : nat) :
  let innerWidth := widthCm * 10 * mm - width cfg * mm * 2 in
  let innerHeight := heightCm * 10 * mm - width cfg * mm * 2 in
  let sashWidth :=
    if (windowType =? 1)%Z then innerWidth
    else innerWidth / IZR windowType in
  let centreX := baseSashX innerWidth sashWidth windowType index in
  let kind := default fixed (type <$> cfgs !! index) in
  let mode := default dreh (JS.get (sashModes st) index) in
  let pl := sashPlacement widthCm heightCm windowType cfg cfgs st index in
  (hingeX pl + sashOffsetX pl = centreX ∧ hingeY pl + sashOffsetY pl = 0)
  ∧ (JS.or_opt_num (JS.get (sashRotations st) index) 0 = 0 →
     ∀ p, placeInSash pl p = add (vec3 centreX 0 0) p)
  ∧ match hingeEdge kind mode with
    | BottomEdge =>
        ∀ x, placeInSash pl (vec3 x (- innerHeight / 2) 0)
             = vec3 (centreX + x) (- innerHeight / 2) 0
    | LeftEdge =>
        ∀ y, placeInSash pl (vec3 (- sashWidth / 2) y 0)
             = vec3 (centreX - sashWidth / 2) y 0
    | RightEdge =>
        ∀ y, placeInSash pl (vec3 (sashWidth / 2) y 0)
             = vec3 (centreX + sashWidth / 2) y 0
    | NoHinge => ∀ p, placeInSash pl p = add (vec3 centreX 0 0) p
    end.
Proof.
  intros innerWidth innerHeight sashWidth centreX kind mode pl.
  unfold pl, sashPlacement.
  fold innerWidth innerHeight sashWidth. fold centreX. fold kind. fold mode.
  set (θ := JS.or_opt_num (JS.get (sashRotations st) index) 0).
  assert (∀ (b : bool) (x y : SashPlacement) (P : SashPlacement → Prop),
            (b = true → P x) → (b = false → P y) → P (if b then x else y))
    as Hif by (intros [|]; auto).
  split; [|split].
  - destruct kind; try (destruct (decide (mode = kipp_mode)));
      simpl; split; lra.
  - intros Hθ p. rewrite Hθ. unfold placeInSash.
    destruct kind; try (destruct (decide (mode = kipp_mode)));
      cbn [hingeX hingeY sashOffsetX sashOffsetY rotationAxis];
      rewrite euler_none; unfold add; simpl; f_equal; lra.
  - destruct kind; simpl; try destruct mode; simpl;
      intros; unfold placeInSash;
      cbn [hingeX hingeY sashOffsetX sashOffsetY rotationAxis];
      rewrite ?euler_none, ?euler_about_x, ?euler_about_y;
      unfold add; simpl; f_equal; try lra; ring.
Qed.

End Hinges.

(* ===================================================================== *)
(** * Cross-sections                                                     *)
(* ===================================================================== *)

Module Profiles.
Import THREE ProfileSystem Window Spec.

Ltac solve_box :=
  repeat (apply List.Forall_cons; [simpl; split; split; lra|]);
  apply List.Forall_nil.

(** X5.  For positive dimensions each cross-section is a closed path inside
    the box of its width and depth, running counter-clockwise around a
    positive area: 0.91 w d for the L of the outer frame (the rebate takes
    0.3 w by 0.3 d), 0.82 w d for the T of the mullion and, for the
    stepped sash profile that is 0.7 w wide, 0.91 of its box. *)
Theorem cross_sections_closed_and_bounded
  (profileWidth profileDepth : R) (cfg : ProfileConfig) :
  0 < profileWidth → 0 < profileDepth →
  width cfg = profileWidth → depth cfg = Some profileDepth →
  let w := profileWidth * mm in
  let d := profileDepth * mm in
  let lShape := createLShapeProfileCrossSection profileWidth profileDepth in
  let stepped :=
    createSteppedSashProfileCrossSection profileWidth profileDepth in
  let tShape := createMullionProfile cfg in
  let sash := createSashProfile cfg in
  (closedPath lShape ∧ inBox 0 w d lShape ∧ shoelace lShape = 0.91 * w * d)
  ∧ (closedPath stepped ∧ inBox 0 (0.7 * w) d stepped
     ∧ shoelace stepped = 0.91 * (0.7 * w) * d)
  ∧ (closedPath tShape ∧ inBox (- w / 2) (w / 2) d tShape
     ∧ shoelace tShape = 0.82 * w * d)
  ∧ (closedPath sash ∧ inBox 0 (0.7 * w) d sash
     ∧ 0 < shoelace sash).
Proof.
  intros Hw Hd Hcw Hcd w d lShape stepped tShape sash.
  assert (0 < w) by (unfold w, mm; lra).
  assert (0 < d) by (unfold d, mm; lra).
  unfold lShape, stepped, tShape, sash, createLShapeProfileCrossSection,
    createSteppedSashProfileCrossSection, createMullionProfile,
    createSashProfile.
  rewrite Hcw, Hcd, (or_num_pos _ _ Hw), (or_opt_num_pos _ _ Hd).
  fold w d. cbv zeta.
  split_and!; try (eexists _, _; split; reflexivity);
    try (unfold inBox; solve_box); simpl; try nra.
Qed.

Lemma cross_sections_closed_and_bounded_witness :
  let cfg := {| profileKey := "modern-slim"; width := 60; depth := Some 70;
                glassRebateDepth := Some 18; sightline := Some 35 |} in
  shoelace (createLShapeProfileCrossSection 60 70)
  = 0.91 * (60 * mm) * (70 * mm)
  ∧ shoelace (createMullionProfile cfg) = 0.82 * (60 * mm) * (70 * mm).
Proof.
  intros cfg.
  destruct (cross_sections_closed_and_bounded 60 70 cfg)
    as ((_ & _ & HL) & _ & (_ & _ & HT) & _);
    [lra|lra|reflexivity|reflexivity|].
  split; [exact HL|exact HT].
Defined.

End Profiles.


(* ===================================================================== *)
(** * Glass against sash and frame                                       *)
(* ===================================================================== *)

Module GlassFit.
Import THREE ProfileSystem Window Spec.




Lemma renderOuterFrame_segment
  (widthCm heightCm : R) (windowType : Z) (cfg : ProfileConfig)
  (profileDepth : R) segments ps :
  depth cfg = Some profileDepth →
  renderOuterFrame widthCm heightCm cfg
    (createCompleteFrame (widthCm * 10) (heightCm * 10) windowType cfg)
  = Some segments →
  ps ∈ segments →
  ps_transform ps
  = getFrameSegmentTransform (ps_segment ps) (widthCm * 10 * 0.001)
      (heightCm * 10 * 0.001) (profileDepth * 0.001) (width cfg * 0.001)
  ∧ eg_shape (ps_geometry ps)
    = createLShapeProfileCrossSection
        (JS.or_num (width cfg) 60) (JS.or_opt_num (Some profileDepth) 70).
Proof.
  intros Hd. unfold renderOuterFrame, createCompleteFrame. rewrite Hd.
  intros [= <-] Hin.
  repeat (apply elem_of_cons in Hin as [->|Hin]; [by split|]).
  by apply elem_of_nil in Hin.
Qed.

Lemma frame_depth_range
  (widthCm heightCm : R) (windowType : Z) (cfg : ProfileConfig)
  (profileDepth : R) segments ps :
  depth cfg = Some profileDepth → 0 < profileDepth →
  renderOuterFrame widthCm heightCm cfg
    (createCompleteFrame (widthCm * 10) (heightCm * 10) windowType cfg)
  = Some segments →
  ps ∈ segments →
  frameBack ps = - (profileDepth * mm) / 2
  ∧ frameFront ps = profileDepth * mm / 2.
Proof.
  intros Hd Hpd Hr Hin.
  destruct (renderOuterFrame_segment _ _ _ _ _ _ _ Hd Hr Hin) as [Ht Hs].
  unfold frameFront, frameBack, worldVertex. rewrite Ht, Hs.
  rewrite (or_opt_num_pos _ _ Hpd).
  pose proof (DepthLayout.shape_depth_range
                (JS.or_num (width cfg) 60) profileDepth Hpd) as [-> ->].
  destruct (ps_segment ps);
    rewrite ?FrameRing.place_bottom, ?FrameRing.place_top,
      ?FrameRing.place_left, ?FrameRing.place_right;
    cbn [vz]; unfold mm; split; lra.
Qed.

(** X7.  The glass never reaches behind the back face of the outer frame (its
    own back face is 0.45 of the profile depth behind the origin, the
    frame's 0.5), and its front face stays behind the front face of the
    frame exactly when the glass is at most 0.95 of the profile depth
    thick. *)
Theorem glass_within_frame_depth
  (widthCm heightCm : R) (windowType : Z) (cfg : ProfileConfig)
  (profileDepth glassThickness : R) :
  depth cfg = Some profileDepth → 0 < profileDepth →
  let glassBack :=
    calculateGlassZPosition cfg glassThickness - glassThickness * mm / 2 in
  let glassFront := calculateGlassFrontZPosition cfg glassThickness in
  glassBack = - (0.45 * (profileDepth * mm))
  ∧ ∃ segments,
      renderOuterFrame widthCm heightCm cfg
        (createCompleteFrame (widthCm * 10) (heightCm * 10) windowType cfg)
      = Some segments
      ∧ length segments = 4%nat
      ∧ Forall (λ ps,
                  frameBack ps < glassBack
                  ∧ (glassFront <= frameFront ps
                     ↔ glassThickness <= 0.95 * profileDepth)) segments.
Proof.
  intros Hd Hpd glassBack glassFront.
  assert (glassBack = - (0.45 * (profileDepth * mm))) as HgB.
  { unfold glassBack, calculateGlassZPosition.
    rewrite Hd, (or_opt_num_pos _ _ Hpd). cbv zeta. unfold mm. lra. }
  assert (glassFront = - (0.45 * (profileDepth * mm)) + glassThickness * mm)
    as HgF.
  { unfold glassFront, calculateGlassFrontZPosition, calculateGlassZPosition.
    rewrite Hd, (or_opt_num_pos _ _ Hpd). cbv zeta. unfold mm. lra. }
  split; [done|].
  destruct (renderOuterFrame widthCm heightCm cfg _) as [segments|] eqn:Hr.
  - exists segments. split; [done|]. split.
    + revert Hr. unfold renderOuterFrame, createCompleteFrame. rewrite Hd.
      by intros [= <-].
    + apply Forall_forall. intros ps Hin.
      destruct (frame_depth_range _ _ _ _ _ _ _ Hd Hpd Hr Hin) as [-> ->].
      rewrite HgB, HgF. unfold mm. split; [lra|split; intros; lra].
  - revert Hr. unfold renderOuterFrame, createCompleteFrame. by rewrite Hd.
Qed.

Lemma glass_within_frame_depth_witness :
  let cfg := {| profileKey := "modern-slim"; width := 60; depth := Some 70;
                glassRebateDepth := Some 18; sightline := Some 35 |} in
  calculateGlassZPosition cfg 24 - 24 * mm / 2 = - (0.45 * (70 * mm)).
Proof.
  intros cfg.
  apply (glass_within_frame_depth 100 120 2 cfg 70 24); [reflexivity|lra].
Defined.

(** X8.  The planned mullion lines: none for a single pane; otherwise one less
    than there are panes, vertical over the inner height, dividing the
    full width evenly, each strictly inside the window and the mirror
    image of the one counted from the other side. *)
Theorem mullion_paths_divide_width
  (width height : R) (paneCount : Z) (frameWidth : R) :
  0 < width →
  let w := width * mm in
  let innerHeight := height * mm - frameWidth * mm * 2 in
  let paths := generateMullionPaths width height paneCount frameWidth in
  let x (i : nat) := - w / 2 + INR (S i) * (w / IZR paneCount) in
  ((paneCount <= 1)%Z → paths = [])
  ∧ ((2 <= paneCount)%Z →
     length paths = Z.to_nat (paneCount - 1)
     ∧ ∀ i, (i < Z.to_nat (paneCount - 1))%nat →
         paths !! i
         = Some (vec3 (x i) (- innerHeight / 2) 0,
                 vec3 (x i) (innerHeight / 2) 0)
         ∧ - w / 2 < x i < w / 2
         ∧ x i = - x (Z.to_nat (paneCount - 1) - 1 - i)%nat).
Proof.
  intros Hw w innerHeight paths x. unfold paths, generateMullionPaths.
  fold w. split.
  - intros Hle. by destruct (Z.leb_spec paneCount 1); [|lia].
  - intros Hge. destruct (Z.leb_spec paneCount 1); [lia|].
    assert (0 < w) as Hw' by (unfold w, mm; lra).
    assert (0 < IZR paneCount) as Hn by (apply IZR_lt; lia).
    split; [by rewrite length_fmap, length_seq|].
    intros i Hi. rewrite list_lookup_fmap, lookup_seq_lt by done.
    split; [reflexivity|].
    assert (INR (S i) < IZR paneCount) as Hlt.
    { rewrite INR_IZR_INZ. apply IZR_lt. lia. }
    assert (0 < INR (S i)) as Hpos by (apply lt_0_INR; lia).
    assert (INR (S (Z.to_nat (paneCount - 1) - 1 - i))
            = IZR paneCount - INR (S i)) as Hmirror.
    { rewrite !S_INR, !minus_INR by lia.
      rewrite (INR_IZR_INZ (Z.to_nat _)), Z2Nat.id by lia.
      rewrite minus_IZR. simpl. lra. }
    unfold x. rewrite Hmirror.
    assert (w / IZR paneCount * IZR paneCount = w) as Hdiv
      by (field; lra).
    set (u := w / IZR paneCount) in *.
    assert (0 < u) by (unfold u; apply Rdiv_lt_0_compat; lra).
    split_and!; nra.
Qed.

Lemma mullion_paths_divide_width_witness :
  generateMullionPaths 1000 1200 1 60 = []
  ∧ length (generateMullionPaths 1000 1200 3 60) = 2%nat.
Proof.
  destruct (mullion_paths_divide_width 1000 1200 1 60) as [H1 _]; [lra|].
  destruct (mullion_paths_divide_width 1000 1200 3 60) as [_ H3]; [lra|].
  split; [apply H1; lia|]. apply H3. lia.
Defined.

End GlassFit.


(* ===================================================================== *)
(** * Sash state: initialisation, shape, and whole animations            *)
(* ===================================================================== *)

Module SashState.
Import Window Spec.

Lemma initSashStates_eq n st :
  let len := length (sashRotations st) in
  initSashStates n st
  = {| sashOpenStates :=
         sashOpenStates st ++ replicate (n - len) (Some false);
       sashRotations := sashRotations st ++ replicate (n - len) (Some 0);
       sashModes := sashModes st ++ replicate (n - len) (Some dreh);
       timeouts := timeouts st |}.
Proof.
  intros len. unfold initSashStates. fold len.
  induction n as [|n IH].
  - simpl. rewrite !app_nil_r. by destruct st.
  - rewrite seq_S, foldl_app, IH. simpl.
    destruct (Nat.leb_spec len n) as [Hle|Hgt].
    + replace (S n - len)%nat with (S (n - len)) by lia.
      rewrite !replicate_S_end. unfold JS.push. simpl.
      by rewrite <- !app_assoc.
    + by replace (S n - len)%nat with (n - len)%nat by lia.
Qed.

(** X9.  A render pass for [n] sashes appends a closed sash at rest in mode
    dreh for every index the arrays do not reach, leaves the sashes that
    exist as they are, and a second pass changes nothing. *)
Theorem render_initialises_sashes (n len : nat) (st : State) :
  wellSized len st →
  let st' := initSashStates n st in
  wellSized (len `max` n) st'
  ∧ (∀ i, (i < len)%nat →
       JS.get (sashOpenStates st') i = JS.get (sashOpenStates st) i
       ∧ JS.get (sashRotations st') i = JS.get (sashRotations st) i
       ∧ JS.get (sashModes st') i = JS.get (sashModes st) i)
  ∧ (∀ i, (len ≤ i < n)%nat →
       JS.get (sashOpenStates st') i = Some false
       ∧ JS.get (sashRotations st') i = Some 0
       ∧ JS.get (sashModes st') i = Some dreh)
  ∧ initSashStates n st' = st'.
Proof.
  intros (Ho & Hr & Hm & Fo & Fr & Fm & Ft) st'.
  unfold st'. rewrite initSashStates_eq, Hr. split_and!.
  - unfold wellSized. simpl. rewrite !length_app, !length_replicate.
    split_and!; try lia.
    + apply Forall_app. split; [done|]. by apply Forall_replicate.
    + apply Forall_app. split; [done|]. by apply Forall_replicate.
    + apply Forall_app. split; [done|]. by apply Forall_replicate.
    + eapply Forall_impl; [exact Ft|]. simpl. lia.
  - intros i Hi. unfold JS.get. simpl.
    by rewrite !lookup_app_l by lia.
  - intros i Hi. unfold JS.get. simpl.
    rewrite !lookup_app_r by lia. rewrite Ho, Hr, Hm.
    by rewrite !lookup_replicate_2 by lia.
  - rewrite initSashStates_eq. simpl.
    rewrite !length_app, !length_replicate, Hr.
    replace (n - (len + (n - len)))%nat with 0%nat by lia.
    simpl. by rewrite !app_nil_r.
Qed.

Lemma render_initialises_sashes_witness :
  wellSized 3 (initSashStates 3 noSashes)
  ∧ JS.get (sashOpenStates (initSashStates 3 noSashes)) 2 = Some false.
Proof.
  destruct (render_initialises_sashes 3 0 noSashes) as (H1 & _ & H3 & _).
  - unfold wellSized, noSashes. simpl. by split_and!.
  - split; [exact H1|]. apply H3. lia.
Defined.

Lemma set_wellSized {A} (n index : nat) (v : A) (arr : list (option A)) :
  length arr = n → Forall is_Some arr → (index < n)%nat →
  length (JS.set index v arr) = n ∧ Forall is_Some (JS.set index v arr).
Proof.
  intros Hlen Hall Hi. unfold JS.set.
  destruct (Nat.ltb_spec index (length arr)); [|lia].
  rewrite length_insert. split; [done|].
  apply Forall_insert; [done|by eexists].
Qed.

Lemma map_wellSized {A B} (n : nat) (f : A → nat → B) arr :
  length arr = n → Forall is_Some arr →
  length (JS.map f arr) = n ∧ Forall is_Some (JS.map f arr).
Proof.
  intros Hlen Hall. split; [by rewrite length_map|].
  apply Forall_lookup. intros i x Hx. unfold JS.map in Hx.
  rewrite list_lookup_imap in Hx.
  destruct (arr !! i) as [cell|] eqn:Hc; [|done]. simpl in Hx.
  injection Hx as <-.
  destruct (Forall_lookup_1 _ _ _ _ Hall Hc) as [y ->]. by eexists.
Qed.

Lemma reopen_wellSized n st l :
  wellSized n st → Forall (λ i, (i < n)%nat) l →
  wellSized n (foldl reopen st l).
Proof.
  revert st. induction l as [|i l IH]; intros st Hst Hl; [done|].
  simpl. apply IH; [|by eapply Forall_inv_tail].
  destruct Hst as (Ho & Hr & Hm & Fo & Fr & Fm & Ft).
  apply Forall_inv in Hl.
  destruct (set_wellSized n i true _ Ho Fo Hl) as [? ?].
  unfold wellSized, reopen. simpl. by split_and!.
Qed.

Lemma step_wellSized cfgs n st e :
  wellSized n st → eventFor n e → wellSized n (step cfgs st e).
Proof.
  intros Hst He. pose proof Hst as (Ho & Hr & Hm & Fo & Fr & Fm & Ft).
  destruct e as [index isOpen mode|delta|ms]; simpl in *.
  - unfold handleSashOpenChange.
    destruct (set_wellSized n index mode _ Hm Fm He) as [? ?].
    destruct (_ && _); unfold wellSized; simpl.
    + destruct (set_wellSized n index 0 _ Hr Fr He) as [? ?].
      destruct (set_wellSized n index false _ Ho Fo He) as [? ?].
      split_and!; try done. apply Forall_app. split; [done|].
      by apply Forall_singleton.
    + destruct (set_wellSized n index isOpen _ Ho Fo He) as [? ?].
      by split_and!.
  - unfold useFrame. destruct (_ =? _)%nat; [done|].
    unfold wellSized. simpl.
    destruct (map_wellSized n
      (λ current i,
         animate (JS.or_opt_num
                    (JS.get (JS.map (targetRotation cfgs (sashModes st))
                                    (sashOpenStates st)) i) 0)
                 current delta) _ Hr Fr) as [? ?].
    by split_and!.
  - unfold elapse. apply reopen_wellSized.
    + unfold wellSized. simpl. split_and!; try done.
      apply Forall_fmap. apply Forall_forall. intros t Ht. simpl.
      apply list_elem_of_filter in Ht as [_ Ht].
      by apply (proj1 (Forall_forall _ _) Ft).
    + apply Forall_fmap. apply Forall_forall. intros t Ht. simpl.
      apply list_elem_of_filter in Ht as [_ Ht].
      by apply (proj1 (Forall_forall _ _) Ft).
Qed.

(** X10.  Toggles of the sashes that exist, frames and timers never change the
    number of sashes nor leave a hole: every sash keeps an open flag, an
    angle and a mode, and the pending reopens stay within range. *)
Theorem events_keep_state_well_sized
  (cfgs : list OpeningConfig) (n : nat) (events : list Event) (st : State) :
  wellSized n st → Forall (eventFor n) events →
  wellSized n (run cfgs events st)
  ∧ ∀ i, (i < n)%nat →
      is_Some (JS.get (sashOpenStates (run cfgs events st)) i)
      ∧ is_Some (JS.get (sashRotations (run cfgs events st)) i)
      ∧ is_Some (JS.get (sashModes (run cfgs events st)) i).
Proof.
  intros Hst Hev.
  assert (wellSized n (run cfgs events st)) as Hrun.
  { revert st Hst. induction Hev as [|e events He _ IH]; intros st Hst;
      [done|].
    unfold run in *. simpl. apply IH. by apply step_wellSized. }
  split; [done|]. destruct Hrun as (Ho & Hr & Hm & Fo & Fr & Fm & _).
  assert (∀ A (arr : list (option A)) i,
            length arr = n → Forall is_Some arr → (i < n)%nat →
            is_Some (JS.get arr i)) as Hget.
  { intros A arr i Hlen Hall Hi. unfold JS.get.
    destruct (lookup_lt_is_Some_2 arr i) as [cell Hc]; [lia|].
    rewrite Hc. simpl. by apply (Forall_lookup_1 _ _ _ _ Hall Hc). }
  intros i Hi. split_and!; by apply Hget.
Qed.

Lemma events_keep_state_well_sized_witness :
  wellSized 2
    (run [ {| type := dreh_kipp_links |}; {| type := fixed |} ]
         [Toggle 0 true dreh; Frame (1 / 60); Toggle 0 true kipp_mode;
          Elapse 50; Toggle 1 false dreh]
         (initSashStates 2 noSashes)).
Proof.
  apply (events_keep_state_well_sized _ 2).
  - unfold wellSized. simpl. split_and!; try done;
      repeat constructor; by eexists.
  - repeat constructor; simpl; lia.
Defined.

(** ** Whole animations *)

Lemma animate_shift target current delta s :
  animate (target + s) (current + s) delta = animate target current delta + s.
Proof.
  unfold animate. replace (target + s - (current + s))
    with (target - current) by lra.
  destruct (Rlt_dec _ _); lra.
Qed.

Lemma animateN_shift n target current delta s :
  animateN n (target + s) delta (current + s)
  = animateN n target delta current + s.
Proof.
  revert current. induction n as [|n IH]; intros current; [done|].
  simpl. by rewrite animate_shift, IH.
Qed.

Lemma animateN_from_any_start (start T dt : R) :
  0 < 3 * dt → 3 * dt <= 1 →
  (∀ n, (settleFrames (T - start) dt ≤ n)%nat →
        animateN n T dt start = T)
  ∧ ∀ n, Rmin start T <= animateN n T dt start <= Rmax start T.
Proof.
  intros Hpos Hsmall.
  assert (∀ n, animateN n T dt start
               = animateN n (T - start) dt 0 + start) as Hshift.
  { intros n. rewrite <- animateN_shift. f_equal; lra. }
  split; intros n.
  - intros Hn. rewrite Hshift.
    rewrite (Kinematics.settled _ _ Hpos Hsmall n Hn). lra.
  - rewrite Hshift.
    pose proof (Kinematics.no_overshoot (T - start) dt Hpos Hsmall n) as Hb.
    unfold between in Hb. unfold Rmin, Rmax.
    destruct (Rle_dec start T); lra.
Qed.

(** X11.  From any angle and towards any target, with frames of at most a third
    of a second, the animation lands on the target exactly after a number
    of frames bounded by the distance, stays there, and on its way never
    leaves the interval between where it started and the target.  In
    particular a closing sash comes to rest at 0. *)
Theorem animation_settles (start T dt : R) :
  0 < 3 * dt → 3 * dt <= 1 →
  (∀ n, (settleFrames (T - start) dt ≤ n)%nat →
        animateN n T dt start = T)
  ∧ ∀ n, Rmin start T <= animateN n T dt start <= Rmax start T.
Proof. apply animateN_from_any_start. Qed.

Lemma animation_settles_witness :
  animateN (settleFrames (0 - PI / 16) (1 / 60)) 0 (1 / 60) (PI / 16) = 0.
Proof.
  apply (animation_settles (PI / 16) 0 (1 / 60)); [lra|lra|lia].
Defined.

Lemma frames_animate cfgs dt n st index isOpen current :
  JS.get (sashOpenStates st) index = Some isOpen →
  JS.get (sashRotations st) index = Some current →
  let st' := run cfgs (replicate n (Frame dt)) st in
  JS.get (sashRotations st') index
  = Some (animateN n (targetRotation cfgs (sashModes st) isOpen index)
                   dt current)
  ∧ sashOpenStates st' = sashOpenStates st
  ∧ sashModes st' = sashModes st
  ∧ timeouts st' = timeouts st.
Proof.
  revert st current. induction n as [|n IH]; intros st current Hopen Hrot;
    [done|].
  change (run cfgs (replicate (S n) (Frame dt)) st)
    with (run cfgs (replicate n (Frame dt)) (useFrame cfgs dt st)).
  destruct (SashToggle.useFrame_frame cfgs dt st) as (Ho & Hm & Ht).
  pose proof (Kinematics.useFrame_rotation cfgs dt st index current Hrot)
    as Hstep.
  rewrite Hopen in Hstep. simpl in Hstep.
  destruct (IH (useFrame cfgs dt st) _
              (eq_trans (f_equal (λ a, JS.get a index) Ho) Hopen) Hstep)
    as (IH1 & IH2 & IH3 & IH4).
  cbv zeta. rewrite IH1, IH2, IH3, IH4, Ho, Hm, Ht. done.
Qed.

(** X12.  Opening a closed sash at rest and letting frames of at most a third of
    a second pass brings it to the target angle of its kind and mode
    exactly, without any timer; closing it again in the same mode and
    letting frames pass brings it back to rest. *)
Theorem open_then_close_returns_to_rest
  (cfgs : list OpeningConfig) (st : State) (index : nat)
  (c : OpeningConfig) (mode : Mode) (dt : R) (n m : nat) :
  cfgs !! index = Some c →
  JS.get (sashOpenStates st) index = Some false →
  JS.get (sashRotations st) index = Some 0 →
  0 < 3 * dt → 3 * dt <= 1 →
  let target := spec_target (type c) mode in
  (settleFrames target dt ≤ n)%nat →
  (settleFrames (0 - target) dt ≤ m)%nat →
  let opened :=
    run cfgs (Toggle index true mode :: replicate n (Frame dt)) st in
  let closed :=
    run cfgs (Toggle index false mode :: replicate m (Frame dt)) opened in
  (JS.get (sashRotations opened) index = Some target
   ∧ JS.get (sashOpenStates opened) index = Some true
   ∧ JS.get (sashModes opened) index = Some mode
   ∧ timeouts opened = timeouts st)
  ∧ (JS.get (sashRotations closed) index = Some 0
     ∧ JS.get (sashOpenStates closed) index = Some false
     ∧ timeouts closed = timeouts st).
Proof.
  intros Hc Hopen Hrot Hpos Hsmall target Hn Hm opened closed.
  assert (handleSashOpenChange index true mode st
          = {| sashOpenStates := JS.set index true (sashOpenStates st);
               sashModes := JS.set index mode (sashModes st);
               sashRotations := sashRotations st;
               timeouts := timeouts st |}) as Hon.
  { apply SashToggle.handle_plain. rewrite Hopen. by intros [? _]. }
  assert (JS.get (sashRotations opened) index = Some target
          ∧ JS.get (sashOpenStates opened) index = Some true
          ∧ JS.get (sashModes opened) index = Some mode
          ∧ timeouts opened = timeouts st) as Hopened.
  { unfold opened.
    change (run cfgs (Toggle index true mode :: replicate n (Frame dt)) st)
      with (run cfgs (replicate n (Frame dt))
                (handleSashOpenChange index true mode st)).
    rewrite Hon.
    destruct (frames_animate cfgs dt n
                {| sashOpenStates := JS.set index true (sashOpenStates st);
                   sashModes := JS.set index mode (sashModes st);
                   sashRotations := sashRotations st;
                   timeouts := timeouts st |} index true 0)
      as (H1 & H2 & H3 & H4); [apply get_set_eq|exact Hrot|].
    rewrite H1, H2, H3, H4. simpl.
    rewrite !get_set_eq. split_and!; try done. f_equal.
    rewrite (Kinematics.targetRotation_spec _ _ _ _ Hc), get_set_eq. simpl.
    fold target.
    by apply (proj1 (animateN_from_any_start 0 target dt Hpos Hsmall));
      replace (target - 0) with target by lra. }
  split; [done|]. destruct Hopened as (Hr1 & Ho1 & Hm1 & Ht1).
  assert (handleSashOpenChange index false mode opened
          = {| sashOpenStates := JS.set index false (sashOpenStates opened);
               sashModes := JS.set index mode (sashModes opened);
               sashRotations := sashRotations opened;
               timeouts := timeouts opened |}) as Hoff.
  { apply SashToggle.handle_plain. rewrite Hm1. simpl. by intros [_ ?]. }
  unfold closed.
  change (run cfgs (Toggle index false mode :: replicate m (Frame dt)) opened)
    with (run cfgs (replicate m (Frame dt))
              (handleSashOpenChange index false mode opened)).
  rewrite Hoff.
  destruct (frames_animate cfgs dt m
              {| sashOpenStates := JS.set index false (sashOpenStates opened);
                 sashModes := JS.set index mode (sashModes opened);
                 sashRotations := sashRotations opened;
                 timeouts := timeouts opened |} index false target)
    as (H1 & H2 & H3 & H4); [apply get_set_eq|exact Hr1|].
  rewrite H1, H2, H4. simpl. rewrite get_set_eq.
  split_and!; try done. f_equal.
  by apply (proj1 (animateN_from_any_start target 0 dt Hpos Hsmall)).
Qed.

Lemma open_then_close_returns_to_rest_witness :
  let cfgs := [ {| type := kipp |} ] in
  let st := initSashStates 1 noSashes in
  let n := settleFrames (PI / 16) (1 / 60) in
  let m := settleFrames (0 - PI / 16) (1 / 60) in
  JS.get (sashRotations
            (run cfgs (Toggle 0 true dreh :: replicate n (Frame (1 / 60)))
                 st)) 0
  = Some (PI / 16).
Proof.
  intros cfgs st n m.
  apply (open_then_close_returns_to_rest cfgs st 0 {| type := kipp |} dreh
           (1 / 60) n m); try reflexivity; try lra; simpl; lia.
Defined.

(** ** Clicks *)

(** X13.  On a tilt-turn sash a click on a button opens a closed sash in the
    mode of that button, closes a sash that is open in that mode, and
    otherwise switches the mode: the sash is closed at angle 0 and the
    reopen registered.  Only the switch registers a timer or touches the
    angle. *)
Theorem click_on_hybrid_sash
  (cfgs : list OpeningConfig) (st : State) (index : nat)
  (c : OpeningConfig) (button current : Mode) (isOpen : bool) :
  cfgs !! index = Some c →
  type c = dreh_kipp_links ∨ type c = dreh_kipp_rechts →
  JS.get (sashOpenStates st) index = Some isOpen →
  JS.get (sashModes st) index = Some current →
  let st' := clickButton cfgs index button st in
  buttonShownOpen cfgs st index button
  = isOpen && bool_decide (current = button)
  ∧ JS.get (sashModes st') index = Some button
  ∧ (isOpen = false →
     JS.get (sashOpenStates st') index = Some true
     ∧ sashRotations st' = sashRotations st
     ∧ timeouts st' = timeouts st)
  ∧ (isOpen = true → current = button →
     JS.get (sashOpenStates st') index = Some false
     ∧ sashRotations st' = sashRotations st
     ∧ timeouts st' = timeouts st)
  ∧ (isOpen = true → current ≠ button →
     JS.get (sashOpenStates st') index = Some false
     ∧ JS.get (sashRotations st') index = Some 0
     ∧ timeouts st' = timeouts st ++ [(50%nat, index)]).
Proof.
  intros Hc Hhybrid Hopen Hmode st'.
  assert (buttonShownOpen cfgs st index button
          = isOpen && bool_decide (current = button)) as Hshown.
  { unfold buttonShownOpen. rewrite Hc, Hopen, Hmode. simpl.
    destruct Hhybrid as [-> | ->], button, current, isOpen; done. }
  split; [done|]. split; [apply SashToggle.handle_mode|].
  unfold st', clickButton. rewrite Hshown.
  split_and!.
  - intros ->. simpl. rewrite SashToggle.handle_plain;
      [|rewrite Hopen; by intros [? _]].
    simpl. by rewrite get_set_eq.
  - intros -> ->. rewrite bool_decide_eq_true_2 by done. simpl.
    rewrite SashToggle.handle_plain; [|rewrite Hmode; by intros [_ ?]].
    simpl. by rewrite get_set_eq.
  - intros -> Hne. rewrite bool_decide_eq_false_2 by done. simpl.
    rewrite SashToggle.handle_switch;
      [|by rewrite Hopen|by rewrite Hmode].
    simpl. by rewrite !get_set_eq.
Qed.

Lemma click_on_hybrid_sash_witness :
  let cfgs := [ {| type := dreh_kipp_links |} ] in
  let st := {| sashOpenStates := [Some true]; sashRotations := [Some 1];
               sashModes := [Some dreh]; timeouts := [] |} in
  JS.get (sashModes (clickButton cfgs 0 kipp_mode st)) 0 = Some kipp_mode.
Proof.
  intros cfgs st.
  apply (click_on_hybrid_sash cfgs st 0 {| type := dreh_kipp_links |}
           kipp_mode dreh true); try reflexivity. by left.
Defined.

End SashState.


(* ===================================================================== *)
(** * Opening indicators                                                 *)
(* ===================================================================== *)

Module Indicators.
Import THREE OpeningVisualization Spec.

(** X14.  A fixed sash has no indicator.  The indicator of a tilt-turn sash is
    the one of the turn sash hinged on the same side, button included,
    followed by the lines of the tilt indicator.  All lines lie on the
    front face of the glass, inside the margin, and the button of a turn
    sash sits on the edge opposite the hinge. *)
Theorem indicator_lines
  (w h z m : R) (kind : OpeningType) :
  0 <= m → 2 * m <= w → 2 * m <= h →
  indicator fixed w h z m = None
  ∧ (∃ tilt turnL turnR hybridL hybridR,
       indicator kipp w h z m = Some tilt
       ∧ indicator dreh_links w h z m = Some turnL
       ∧ indicator dreh_rechts w h z m = Some turnR
       ∧ indicator dreh_kipp_links w h z m = Some hybridL
       ∧ indicator dreh_kipp_rechts w h z m = Some hybridR
       ∧ lines hybridL = lines turnL ++ lines tilt
       ∧ lines hybridR = lines turnR ++ lines tilt
       ∧ (buttonX hybridL, buttonY hybridL) = (buttonX turnL, buttonY turnL)
       ∧ (buttonX hybridR, buttonY hybridR) = (buttonX turnR, buttonY turnR)
       ∧ (buttonX turnL, buttonY turnL) = (w / 2 - m, 0)
       ∧ (buttonX turnR, buttonY turnR) = (- w / 2 + m, 0)
       ∧ (buttonX tilt, buttonY tilt) = (0, h / 2 - m))
  ∧ ∀ i, indicator kind w h z m = Some i → Forall (onGlass w h z m) (lines i).
Proof.
  intros Hm Hw Hh. split; [done|]. split.
  - eexists _, _, _, _, _. by split_and!.
  - intros i Hi. destruct kind; simpl in Hi; [done|..];
      injection Hi as <-; simpl;
      repeat (apply List.Forall_cons;
              [unfold onGlass; simpl; split_and!; lra|]);
      apply List.Forall_nil.
Qed.

Lemma indicator_lines_witness :
  ∃ i, indicator dreh_kipp_links 0.4 1 0.01 0.005 = Some i
       ∧ Forall (onGlass 0.4 1 0.01 0.005) (lines i).
Proof.
  eexists. split; [reflexivity|].
  apply (indicator_lines 0.4 1 0.01 0.005 dreh_kipp_links);
    [lra|lra|lra|reflexivity].
Defined.

End Indicators.

(* ===================================================================== *)
(** * Configuration: limits, pane widths and the reducer                 *)
(* ===================================================================== *)

Module ConfigFacts.
Import Config WindowContext GeometryBuilders.









Lemma withStructure_same state :
  withStructure state (wc_type state) (wc_frame state) (wc_profile state)
    (wc_muntins state) (wc_handles state) (wc_opening state) = state.
Proof. by destruct state. Qed.

Lemma filter_all {A} (P : A → Prop) `{!∀ x, Decision (P x)} (l : list A) :
  Forall P l → filter P l = l.
Proof.
  induction 1 as [|x l Hx _ IH]; [done|].
  by rewrite filter_cons_True, IH.
Qed.

(** X17.  Removing a handle id leaves no handle with that id and keeps the
    others in their order; adding a handle under an id that is not in use
    and removing it again gives back the configuration; an update changes
    neither the number of handles nor the handles with another id. *)
Theorem handles_add_remove_update
  (state : WindowConfiguration) (h : HandleConfig) (id : string)
  (config : PartialHandleConfig) :
  let removed := windowReducer state (REMOVE_HANDLE id) in
  let updated := windowReducer state (UPDATE_HANDLE id config) in
  (Forall (λ k, hc_id k ≠ id) (wc_handles removed)
   ∧ wc_handles removed = filter (λ k, hc_id k ≠ id) (wc_handles state))
  ∧ (Forall (λ k, hc_id k ≠ hc_id h) (wc_handles state) →
     windowReducer (windowReducer state (ADD_HANDLE h))
                   (REMOVE_HANDLE (hc_id h)) = state)
  ∧ (length (wc_handles updated) = length (wc_handles state)
     ∧ ∀ i k, wc_handles state !! i = Some k → hc_id k ≠ id →
              wc_handles updated !! i = Some k).
Proof.
  intros removed updated. split; [split|split; [|split]].
  - unfold removed. simpl. apply Forall_forall. intros k Hk.
    by apply list_elem_of_filter in Hk as [? _].
  - done.
  - intros Hfresh. destruct state. simpl in *.
    rewrite filter_app, (filter_all _ _ Hfresh).
    by rewrite filter_cons_False, filter_nil, app_nil_r by (by intros Hne).
  - unfold updated. simpl. by rewrite length_fmap.
  - intros i k Hk Hne. unfold updated. simpl.
    rewrite list_lookup_fmap, Hk. simpl. by rewrite decide_False.
Qed.

Lemma handles_add_remove_update_witness :
  let h := {| hc_id := "handle-2"; hc_position := (0, 0, 0);
              hc_rotation := None; hc_modelKey := None |} in
  windowReducer (windowReducer DEFAULT_WINDOW_CONFIG (ADD_HANDLE h))
                (REMOVE_HANDLE "handle-2") = DEFAULT_WINDOW_CONFIG.
Proof.
  intros h.
  apply (handles_add_remove_update DEFAULT_WINDOW_CONFIG h "handle-2"
           {| ph_id := None; ph_position := None; ph_rotation := None;
              ph_modelKey := None |}).
  simpl. repeat constructor. discriminate.
Defined.

Lemma getGlassPaneCount_cases windowType :
  let n := getGlassPaneCount windowType in
  (n = 1 ∨ n = 2 ∨ n = 3)%Z.
Proof.
  unfold getGlassPaneCount.
  destruct (String.eqb _ _); [by left|].
  destruct (String.eqb _ _); [by right; left|].
  destruct (String.eqb _ _); [by right; right|by left].
Qed.

(** X18.  The inner width is never negative, and the panes of a window together
    with one profile width between neighbours fill it exactly: for one,
    two or three panes, [n * paneWidth + (n - 1) * profileWidth] is the
    inner width; a type that is not known counts as one pane. *)
Theorem pane_widths_fill_inner_width (windowConfig : WindowConfiguration) :
  let n := getGlassPaneCount (wc_type windowConfig) in
  let profileWidth := width (wc_profile windowConfig) in
  (1 <= n <= 3)%Z
  ∧ 0 <= calculateInnerWidth windowConfig
  ∧ 0 <= calculateInnerHeight windowConfig
  ∧ IZR n * getPaneWidth windowConfig + (IZR n - 1) * profileWidth
    = calculateInnerWidth windowConfig
  ∧ (wc_type windowConfig ≠ "2-part" → wc_type windowConfig ≠ "3-part" →
     n = 1%Z).
Proof.
  intros n profileWidth. split; [|split; [|split; [|split]]].
  - destruct (getGlassPaneCount_cases (wc_type windowConfig))
      as [H | [H | H]]; fold n in H; lia.
  - apply Rmax_l.
  - apply Rmax_l.
  - unfold getPaneWidth. fold n profileWidth.
    destruct (getGlassPaneCount_cases (wc_type windowConfig))
      as [H | [H | H]]; fold n in H; rewrite H; simpl; lra.
  - intros H2 H3. unfold n, getGlassPaneCount.
    destruct (String.eqb_spec (wc_type windowConfig) "1-part"); [done|].
    destruct (String.eqb_spec (wc_type windowConfig) "2-part"); [done|].
    by destruct (String.eqb_spec (wc_type windowConfig) "3-part").
Qed.

(** X19.  For two or more panes the builder returns that many panes of equal
    width, from right to left, neighbours exactly one frame width apart;
    the row is as wide as the inner width but reaches from
    [-innerWidth/2 - frameWidth/2] to [innerWidth/2 - frameWidth/2]: it
    sits half a frame width left of the centre. *)
Theorem built_panes_tile
  (width height frameWidth : R) (paneCount : Z)
  (glazingThickness : option R) :
  (2 <= paneCount)%Z →
  let innerWidth := width - frameWidth * 2 in
  let n := Z.to_nat paneCount in
  let left g := plane_x g - plane_width g / 2 in
  let right g := plane_x g + plane_width g / 2 in
  ∃ panes,
    buildGlassGeometry width height frameWidth paneCount glazingThickness
    = Panes panes
    ∧ length panes = n
    ∧ (∀ i g, panes !! i = Some g →
         IZR paneCount * plane_width g
         + (IZR paneCount - 1) * frameWidth = innerWidth
         ∧ plane_height g = height - frameWidth * 2)
    ∧ (∀ i g g', panes !! i = Some g → panes !! S i = Some g' →
         left g - right g' = frameWidth)
    ∧ (∀ g, panes !! 0%nat = Some g →
         right g = innerWidth / 2 - frameWidth / 2)
    ∧ (∀ g, panes !! (n - 1)%nat = Some g →
         left g = - innerWidth / 2 - frameWidth / 2).
Proof.
  intros Hn innerWidth n left right. unfold buildGlassGeometry.
  destruct (Z.eqb_spec paneCount 1); [lia|]. fold innerWidth.
  assert (IZR paneCount ≠ 0) as Hnz by (apply not_0_IZR; lia).
  set (pw := (innerWidth - frameWidth * (IZR paneCount - 1)) / IZR paneCount).
  assert (IZR paneCount * pw = innerWidth - frameWidth * (IZR paneCount - 1))
    as Hpw by (unfold pw; field; done).
  eexists. split; [reflexivity|].
  split; [by rewrite length_fmap, length_seq|].
  assert (∀ i g,
            ((λ i0 : nat,
               {| plane_width := pw;
                  plane_height := height - frameWidth * 2;
                  plane_x := innerWidth / 2 - frameWidth / 2
                             - INR i0 * (pw + frameWidth) - pw / 2;
                  plane_y := 0;
                  plane_z := frameWidth / 2 + default 6 glazingThickness / 2 |})
               <$> seq 0 (Z.to_nat paneCount)) !! i = Some g →
            (i < n)%nat
            ∧ plane_width g = pw
            ∧ plane_height g = height - frameWidth * 2
            ∧ plane_x g = innerWidth / 2 - frameWidth / 2
                          - INR i * (pw + frameWidth) - pw / 2) as Hlook.
  { intros i g Hg. rewrite list_lookup_fmap in Hg.
    destruct (seq 0 (Z.to_nat paneCount) !! i) as [j|] eqn:Hj; [|done].
    apply lookup_seq in Hj as [-> Hlt]. simpl in Hg. injection Hg as <-.
    by split_and!. }
  split_and!.
  - intros i g Hg. destruct (Hlook i g Hg) as (_ & -> & -> & _).
    split; [lra|done].
  - intros i g g' Hg Hg'. unfold left, right.
    destruct (Hlook i g Hg) as (_ & -> & _ & ->).
    destruct (Hlook (S i) g' Hg') as (_ & -> & _ & ->).
    rewrite S_INR. lra.
  - intros g Hg. unfold right.
    destruct (Hlook 0%nat g Hg) as (_ & -> & _ & ->). simpl. lra.
  - intros g Hg. unfold left.
    destruct (Hlook (n - 1)%nat g Hg) as (_ & -> & _ & ->).
    assert (INR (n - 1) = IZR paneCount - 1) as ->.
    { unfold n. rewrite minus_INR by lia.
      rewrite INR_IZR_INZ, Z2Nat.id by lia. simpl. lra. }
    nra.
Qed.

Lemma built_panes_tile_witness :
  ∃ panes,
    buildGlassGeometry 1000 1200 60 2 None = Panes panes
    ∧ length panes = 2%nat.
Proof.
  destruct (built_panes_tile 1000 1200 60 2 None) as (panes & H1 & H2 & _);
    [lia|].
  by exists panes.
Defined.

(** X20.  For a window of two or three parts, where the builder returns an
    array, the pane width reported is the width of every pane the builder
    makes, and the inner height their height, provided the window is at
    least two profile widths wide and high (below that only the reported
    sizes are cut off at 0). *)
Theorem pane_width_agrees_with_builder
  (windowConfig : WindowConfiguration) (panes : list PlaneGeometry)
  (g : PlaneGeometry) :
  2 * width (wc_profile windowConfig) <= wc_width windowConfig →
  2 * width (wc_profile windowConfig) <= wc_height windowConfig →
  buildGlassGeometry (wc_width windowConfig) (wc_height windowConfig)
                     (width (wc_profile windowConfig))
                     (getGlassPaneCount (wc_type windowConfig)) None
  = Panes panes →
  g ∈ panes →
  plane_width g = getPaneWidth windowConfig
  ∧ plane_height g = calculateInnerHeight windowConfig.
Proof.
  intros Hwide Hhigh. unfold buildGlassGeometry, getPaneWidth,
    calculateInnerWidth, calculateInnerHeight.
  rewrite (Rmax_right 0 (wc_width windowConfig - _)) by lra.
  rewrite (Rmax_right 0 (wc_height windowConfig - _)) by lra.
  destruct (getGlassPaneCount_cases (wc_type windowConfig))
    as [H | [H | H]]; simpl in H; rewrite H; simpl; [done|..];
    intros [= <-] Hg;
    repeat (apply elem_of_cons in Hg as [->|Hg]; [simpl; split; lra|]);
    by apply elem_of_nil in Hg.
Qed.

Lemma pane_width_agrees_with_builder_witness :
  let cfg := windowReducer DEFAULT_WINDOW_CONFIG (SET_WINDOW_TYPE "2-part") in
  ∃ g, plane_width g = getPaneWidth cfg
       ∧ plane_height g = calculateInnerHeight cfg.
Proof.
  intros cfg. eexists.
  eapply (pane_width_agrees_with_builder cfg);
    [simpl; lra|simpl; lra|reflexivity|left].
Defined.

(** X21.  The grid has one bar per row and per column, the rows from the top
    down first; the bars divide the inner height and width evenly and lie
    strictly inside; the cross pattern is the grid of one row and one
    column. *)
Theorem muntin_grid_divides_evenly
  (width height frameWidth : R) (rows columns : Z) (muntinWidth : R) :
  (0 <= rows)%Z → (0 <= columns)%Z →
  0 < width - frameWidth * 2 → 0 < height - frameWidth * 2 →
  let innerWidth := width - frameWidth * 2 in
  let innerHeight := height - frameWidth * 2 in
  let bars :=
    buildMuntinsGeometryGrid width height frameWidth rows columns
                             muntinWidth in
  length bars = (Z.to_nat rows + Z.to_nat columns)%nat
  ∧ (∀ i, (i < Z.to_nat rows)%nat →
       ∃ g, bars !! i = Some g
            ∧ plane_width g = innerWidth ∧ plane_height g = muntinWidth
            ∧ plane_x g = 0
            ∧ plane_y g
              = innerHeight / 2 - INR (S i) * (innerHeight / (IZR rows + 1))
            ∧ - innerHeight / 2 < plane_y g < innerHeight / 2)
  ∧ (∀ j, (j < Z.to_nat columns)%nat →
       ∃ g, bars !! (Z.to_nat rows + j)%nat = Some g
            ∧ plane_width g = muntinWidth ∧ plane_height g = innerHeight
            ∧ plane_y g = 0
            ∧ plane_x g
              = - (innerWidth / 2)
                + INR (S j) * (innerWidth / (IZR columns + 1))
            ∧ - innerWidth / 2 < plane_x g < innerWidth / 2).
Proof.
  intros Hr Hc Hiw Hih innerWidth innerHeight bars.
  assert (∀ (k : Z) (i : nat) (L : R),
            (0 <= k)%Z → (i < Z.to_nat k)%nat → 0 < L →
            0 < INR (S i) * (L / (IZR k + 1)) < L) as Hinside.
  { intros k i L Hk Hi HL.
    assert (INR (S i) < IZR k + 1) as Hlt.
    { rewrite S_INR.
      assert (INR i < IZR k); [|lra].
      rewrite INR_IZR_INZ. apply IZR_lt. lia. }
    assert (0 < INR (S i)) by (apply lt_0_INR; lia).
    assert (0 < IZR k + 1) by lra.
    set (u := L / (IZR k + 1)).
    assert (0 < u) by (unfold u; apply Rdiv_lt_0_compat; lra).
    assert (u * (IZR k + 1) = L) by (unfold u; field; lra).
    split; nra. }
  assert (length
            (if (0 <? rows)%Z
             then (λ i : nat,
                     {| plane_width := innerWidth;
                        plane_height := muntinWidth; plane_x := 0;
                        plane_y := innerHeight / 2
                                   - INR i * (innerHeight / (IZR rows + 1));
                        plane_z := frameWidth / 2 + 3 |})
                    <$> seq 1 (Z.to_nat rows)
             else []) = Z.to_nat rows) as Hlen.
  { destruct (Z.ltb_spec 0 rows).
    - by rewrite length_fmap, length_seq.
    - simpl. lia. }
  unfold bars, buildMuntinsGeometryGrid. fold innerWidth innerHeight.
  split_and!.
  - rewrite length_app, Hlen. f_equal.
    destruct (Z.ltb_spec 0 columns).
    + by rewrite length_fmap, length_seq.
    + simpl. lia.
  - intros i Hi. destruct (Z.ltb_spec 0 rows); [|lia].
    rewrite lookup_app_l by (rewrite length_fmap, length_seq; lia).
    rewrite list_lookup_fmap, lookup_seq_lt by done.
    eexists. split; [reflexivity|].
    cbn [plane_width plane_height plane_x plane_y].
    change (1 + i)%nat with (S i).
    pose proof (Hinside rows i innerHeight Hr Hi Hih).
    split_and!; try done; lra.
  - intros j Hj. destruct (Z.ltb_spec 0 columns); [|lia].
    rewrite lookup_app_r by (rewrite Hlen; lia).
    rewrite Hlen. replace (Z.to_nat rows + j - Z.to_nat rows)%nat with j
      by lia.
    rewrite list_lookup_fmap, lookup_seq_lt by done.
    eexists. split; [reflexivity|].
    cbn [plane_width plane_height plane_x plane_y].
    change (1 + j)%nat with (S j).
    pose proof (Hinside columns j innerWidth Hc Hj Hiw).
    split_and!; try done; lra.
Qed.

Lemma muntin_grid_divides_evenly_witness :
  length (buildMuntinsGeometryGrid 1000 1200 60 2 3 20) = 5%nat.
Proof.
  apply (muntin_grid_divides_evenly 1000 1200 60 2 3 20); try lia; lra.
Defined.

(** X22.  The cross pattern is the grid of one row and one column. *)
Lemma cross_is_one_by_one_grid width height frameWidth muntinWidth :
  buildMuntinsGeometryCross width height frameWidth muntinWidth
  = buildMuntinsGeometryGrid width height frameWidth 1 1 muntinWidth.
Proof.
  unfold buildMuntinsGeometryCross, buildMuntinsGeometryGrid. simpl.
  repeat f_equal; lra.
Qed.

End ConfigFacts.


(* ===================================================================== *)
(** * Colours                                                            *)
(* ===================================================================== *)

Module ColorFacts.
Import Colors.

Lemma channels_checked :
  forallb
    (λ n : nat,
       let hex := toString16 (Z.of_nat n) in
       match (if (String.length hex =? 1)%nat then "0" +:+ hex else hex) with
       | String c1 (String c2 EmptyString) =>
           match parseHexPair c1 c2 with
           | Some k => (k =? Z.of_nat n)%Z
           | None => false
           end
       | _ => false
       end)
    (seq 0 256) = true.
Proof. vm_compute. reflexivity. Qed.

Lemma channel_two_digits (k : Z) :
  (0 <= k <= 255)%Z →
  let hex := toString16 k in
  ∃ c1 c2,
    (if (String.length hex =? 1)%nat then "0" +:+ hex else hex)
    = String c1 (String c2 EmptyString)
    ∧ parseHexPair c1 c2 = Some k.
Proof.
  intros Hk hex. unfold hex.
  pose proof (proj1 (forallb_forall _ _) channels_checked (Z.to_nat k)) as H.
  cbv beta zeta in H. rewrite Z2Nat.id in H by lia.
  specialize (H ltac:(apply in_seq; lia)).
  destruct (if (String.length (toString16 k) =? 1)%nat
            then "0" +:+ toString16 k else toString16 k)
    as [|c1 [|c2 [|]]]; try done.
  exists c1, c2. split; [done|].
  destruct (parseHexPair c1 c2) as [k'|]; [|done].
  apply Z.eqb_eq in H. by subst.
Qed.

Lemma negative_starts_with_minus (k : Z) :
  (k < 0)%Z →
  let hex := toString16 k in
  ∃ c rest,
    (if (String.length hex =? 1)%nat then "0" +:+ hex else hex)
    = String "-" (String c rest).
Proof.
  intros Hk hex. unfold hex. destruct k as [|p|p]; [lia..|].
  unfold toString16. simpl.
  destruct (Pos.to_hex_uint p); simpl; by eexists _, _.
Qed.

Lemma round_error (x : R) :
  Rabs (IZR (Math_round (x * 255)) / 255 - x) <= 1 / 510.
Proof.
  unfold Math_round.
  destruct (base_Int_part (x * 255 + / 2)) as [H1 H2].
  apply Rabs_le. split; lra.
Qed.

Lemma round_exact (k : Z) : Math_round (IZR k / 255 * 255) = k.
Proof.
  unfold Math_round. symmetry. apply Int_part_spec.
  replace (IZR k / 255 * 255) with (IZR k) by (field; lra). split; lra.
Qed.

Lemma hexToRgb_channels c1 c2 c3 c4 c5 c6 kr kg kb :
  parseHexPair c1 c2 = Some kr → parseHexPair c3 c4 = Some kg →
  parseHexPair c5 c6 = Some kb →
  hexToRgb
    (String "#" (String c1 (String c2 (String c3 (String c4 (String c5
       (String c6 EmptyString)))))))
  = Some (IZR kr / 255, IZR kg / 255, IZR kb / 255).
Proof. intros Hr Hg Hb. unfold hexToRgb. by rewrite Hr, Hg, Hb. Qed.

Lemma hexToRgb_minus (t : string) :
  hexToRgb (String "#" (String "-" t)) = None.
Proof.
  unfold hexToRgb. by destruct t as [|a1 [|a2 [|a3 [|a4 [|a5 [|a6 t]]]]]].
Qed.

Lemma rgbToHex_quantised (r g b : R) :
  let q x := Math_round (x * 255) in
  (0 <= q r <= 255)%Z → (0 <= q g <= 255)%Z → (0 <= q b <= 255)%Z →
  String.length (rgbToHex r g b) = 7%nat
  ∧ hexToRgb (rgbToHex r g b)
    = Some (IZR (q r) / 255, IZR (q g) / 255, IZR (q b) / 255).
Proof.
  intros q Hr Hg Hb.
  destruct (channel_two_digits _ Hr) as (c1 & c2 & Er & Pr).
  destruct (channel_two_digits _ Hg) as (c3 & c4 & Eg & Pg).
  destruct (channel_two_digits _ Hb) as (c5 & c6 & Eb & Pb).
  unfold rgbToHex. cbn [fmap list_fmap String.concat].
  fold (q r) (q g) (q b). cbv zeta in Er, Eg, Eb. rewrite Er, Eg, Eb.
  simpl String.append. split; [done|].
  by apply hexToRgb_channels.
Qed.

(** X23.  A colour written as a hex string is read back with every channel
    rounded to the nearest multiple of 1/255, at most 1/510 away, as long
    as each channel rounds into 0..255; the string then has seven
    characters.  A channel that rounds below 0 makes a string that is not
    read back at all. *)
Theorem rgb_to_hex_and_back (r g b : R) :
  let q x := Math_round (x * 255) in
  ((0 <= q r <= 255)%Z → (0 <= q g <= 255)%Z → (0 <= q b <= 255)%Z →
   ∃ r' g' b',
     String.length (rgbToHex r g b) = 7%nat
     ∧ hexToRgb (rgbToHex r g b) = Some (r', g', b')
     ∧ r' = IZR (q r) / 255 ∧ g' = IZR (q g) / 255 ∧ b' = IZR (q b) / 255
     ∧ Rabs (r' - r) <= 1 / 510
     ∧ Rabs (g' - g) <= 1 / 510
     ∧ Rabs (b' - b) <= 1 / 510)
  ∧ ((q r < 0)%Z → hexToRgb (rgbToHex r g b) = None).
Proof.
  intros q. split.
  - intros Hr Hg Hb.
    destruct (rgbToHex_quantised r g b Hr Hg Hb) as [Hlen Hback].
    eexists _, _, _. split; [exact Hlen|]. split; [exact Hback|].
    split_and!; try done; apply round_error.
  - intros Hneg.
    destruct (negative_starts_with_minus _ Hneg) as (c & rest & E).
    unfold rgbToHex. cbn [fmap list_fmap String.concat].
    fold (q r). cbv zeta in E. rewrite E.
    simpl String.append. apply hexToRgb_minus.
Qed.

Lemma rgb_to_hex_and_back_witness :
  ∃ r' g' b',
    String.length (rgbToHex (200 / 255) 0 1) = 7%nat
    ∧ hexToRgb (rgbToHex (200 / 255) 0 1) = Some (r', g', b')
    ∧ r' = IZR (Math_round (200 / 255 * 255)) / 255.
Proof.
  destruct (rgb_to_hex_and_back (200 / 255) 0 1) as [H _].
  destruct H as (r' & g' & b' & H1 & H2 & H3 & _).
  - rewrite (round_exact 200). lia.
  - replace (0 * 255) with (IZR 0 / 255 * 255) by lra.
    rewrite (round_exact 0). lia.
  - replace (1 * 255) with (IZR 255 / 255 * 255) by lra.
    rewrite (round_exact 255). lia.
  - by exists r', g', b'.
Defined.

(** X24.  A colour whose channels are multiples of 1/255 between 0 and 1 is
    read back from its hex string exactly. *)
Theorem hex_round_trip (kr kg kb : Z) :
  (0 <= kr <= 255)%Z → (0 <= kg <= 255)%Z → (0 <= kb <= 255)%Z →
  hexToRgb (rgbToHex (IZR kr / 255) (IZR kg / 255) (IZR kb / 255))
  = Some (IZR kr / 255, IZR kg / 255, IZR kb / 255).
Proof.
  intros Hr Hg Hb.
  destruct (rgbToHex_quantised (IZR kr / 255) (IZR kg / 255) (IZR kb / 255))
    as [_ ->]; rewrite ?round_exact; done.
Qed.

Lemma hex_round_trip_witness :
  hexToRgb (rgbToHex (IZR 200 / 255) (IZR 232 / 255) (IZR 240 / 255))
  = Some (IZR 200 / 255, IZR 232 / 255, IZR 240 / 255).
Proof. apply (hex_round_trip 200 232 240); lia. Defined.

End ColorFacts.


(* ===================================================================== *)
(** * The outline of the window                                          *)
(* ===================================================================== *)

Module Outline.
Import THREE ProfileSystem Window Spec.

(** X25.  The outline path is a closed rectangle of the area of the window, and
    the rendered outer frame fills it: every vertex of every placed
    segment lies within the outline, and every corner of the outline is
    the outer corner at one end of the left or the right segment. *)
Theorem outer_frame_within_outline
  (widthCm heightCm : R) (windowType : Z) (cfg : ProfileConfig)
  (profileDepth : R) :
  depth cfg = Some profileDepth →
  0 < width cfg →
  2 * (width cfg * mm) <= widthCm * 10 * mm →
  2 * (width cfg * mm) <= heightCm * 10 * mm →
  let outline := createOuterFramePath (widthCm * 10) (heightCm * 10) in
  let pw := width cfg * mm in
  closedPath outline
  ∧ shoelace outline = (widthCm * 10 * mm) * (heightCm * 10 * mm)
  ∧ ∃ segments,
      renderOuterFrame widthCm heightCm cfg
        (createCompleteFrame (widthCm * 10) (heightCm * 10) windowType cfg)
      = Some segments
      ∧ Forall (λ ps,
                  ∀ x y z,
                    0 <= x <= pw → 0 <= z <= eg_depth (ps_geometry ps) →
                    insideOutline outline (vx (worldVertex ps x y z))
                                          (vy (worldVertex ps x y z)))
               segments
      ∧ Forall (λ corner,
                  ∃ ps z,
                    ps ∈ segments
                    ∧ (z = 0 ∨ z = eg_depth (ps_geometry ps))
                    ∧ vx (worldVertex ps 0 0 z) = corner.1
                    ∧ vy (worldVertex ps 0 0 z) = corner.2)
               outline.
Proof.
  intros Hd Hpw Hw Hh outline pw.
  split; [eexists _, _; split; reflexivity|].
  split; [unfold outline, createOuterFramePath; simpl; lra|].
  unfold renderOuterFrame, createCompleteFrame. rewrite Hd.
  rewrite (or_num_pos _ _ Hpw).
  eexists. split; [reflexivity|].
  unfold mm in Hw, Hh.
  assert (∀ p : R * R,
            p ∈ createOuterFramePath (widthCm * 10) (heightCm * 10) ↔
            p ∈ [ (- (widthCm * 10 * mm) / 2, - (heightCm * 10 * mm) / 2);
                  (widthCm * 10 * mm / 2, - (heightCm * 10 * mm) / 2);
                  (widthCm * 10 * mm / 2, heightCm * 10 * mm / 2);
                  (- (widthCm * 10 * mm) / 2, heightCm * 10 * mm / 2);
                  (- (widthCm * 10 * mm) / 2, - (heightCm * 10 * mm) / 2) ])
    as Hpath by done.
  split.
  - repeat (apply List.Forall_cons;
            [intros x y z Hx Hz; unfold worldVertex;
             cbn [ps_transform ps_geometry eg_depth] in *;
             rewrite ?FrameRing.place_bottom, ?FrameRing.place_top,
               ?FrameRing.place_left, ?FrameRing.place_right;
             cbn [vx vy]; unfold pw, mm in *;
             split;
             exists (- (widthCm * 10 * mm) / 2, - (heightCm * 10 * mm) / 2),
                    (widthCm * 10 * mm / 2, heightCm * 10 * mm / 2);
             (split; [apply Hpath, list_elem_of_here|]);
             (split; [apply Hpath; do 2 apply list_elem_of_further;
                      apply list_elem_of_here|]);
             cbn [fst snd]; unfold mm; lra|]).
    apply List.Forall_nil.
  - unfold outline, createOuterFramePath.
    apply List.Forall_cons;
      [eexists _, _; split;
         [do 2 apply list_elem_of_further; apply list_elem_of_here|];
       split; [right; reflexivity|]; unfold worldVertex;
       cbn [ps_transform ps_geometry eg_depth];
       rewrite FrameRing.place_left; simpl; unfold mm; split; lra|].
    apply List.Forall_cons;
      [eexists _, _; split;
         [do 3 apply list_elem_of_further; apply list_elem_of_here|];
       split; [left; reflexivity|]; unfold worldVertex;
       cbn [ps_transform ps_geometry eg_depth];
       rewrite FrameRing.place_right; simpl; unfold mm; split; lra|].
    apply List.Forall_cons;
      [eexists _, _; split;
         [do 3 apply list_elem_of_further; apply list_elem_of_here|];
       split; [right; reflexivity|]; unfold worldVertex;
       cbn [ps_transform ps_geometry eg_depth];
       rewrite FrameRing.place_right; simpl; unfold mm; split; lra|].
    apply List.Forall_cons;
      [eexists _, _; split;
         [do 2 apply list_elem_of_further; apply list_elem_of_here|];
       split; [left; reflexivity|]; unfold worldVertex;
       cbn [ps_transform ps_geometry eg_depth];
       rewrite FrameRing.place_left; simpl; unfold mm; split; lra|].
    apply List.Forall_cons;
      [eexists _, _; split;
         [do 2 apply list_elem_of_further; apply list_elem_of_here|];
       split; [right; reflexivity|]; unfold worldVertex;
       cbn [ps_transform ps_geometry eg_depth];
       rewrite FrameRing.place_left; simpl; unfold mm; split; lra|].
    apply List.Forall_nil.
Qed.

Lemma outer_frame_within_outline_witness :
  let cfg := {| profileKey := "modern-slim"; width := 60; depth := Some 70;
                glassRebateDepth := Some 18; sightline := Some 35 |} in
  shoelace (createOuterFramePath (100 * 10) (120 * 10))
  = (100 * 10 * mm) * (120 * 10 * mm).
Proof.
  intros cfg.
  apply (outer_frame_within_outline 100 120 2 cfg 70);
    [reflexivity|simpl; lra|simpl; unfold mm; lra..].
Defined.



Lemma rendered_glass_size_witness :
  let cfg := {| profileKey := "modern-slim"; width := 60; depth := Some 70;
                glassRebateDepth := Some 18; sightline := Some 35 |} in
  let cfgs := [ {| type := dreh_kipp_links |}; {| type := fixed |} ] in
  let panes := createGlassPanes (100 * 10) (120 * 10) 2 cfg 24 (Some cfgs) in
  ∃ glass,
    panes !! 0%nat = Some glass
    ∧ box_width glass = sr_glassWidth (renderSash 100 120 2 cfg cfgs true panes 0).
Proof.
  intros cfg cfgs panes.
  eexists. split; [reflexivity|].
  eapply (Glazing.rendered_glass_size 100 120 2 cfg 24 cfgs true 0
            {| type := dreh_kipp_links |});
    [reflexivity|simpl; lra|reflexivity].
Defined.

End Outline.

(* ===================================================================== *)
(** * The geometry computed for a configuration                          *)
(* ===================================================================== *)

Module ComputedFacts.
Import Config GeometryBuilders WindowGeometry.

(** X26.  For a window at least two profile widths wide and high, the glass the
    hook computes agrees with the sizes it reports: one pane of the inner
    width and height for one pane, otherwise as many panes as reported,
    each of the inner height, filling the inner width together with one
    profile width between neighbours.  Muntins are computed only when they
    are enabled with the pattern grid or cross; the cross has two bars. *)
Theorem computed_geometry_consistent (config : WindowConfiguration) :
  2 * width (wc_profile config) <= wc_width config →
  2 * width (wc_profile config) <= wc_height config →
  let cg := useWindowGeometry config in
  let n := cg_paneCount cg in
  (n = 1%Z →
   ∃ g, cg_glassGeometries cg = Some (OnePane g)
        ∧ plane_width g = cg_innerWidth cg
        ∧ plane_height g = cg_innerHeight cg)
  ∧ (n ≠ 1%Z →
     ∃ panes, cg_glassGeometries cg = Some (Panes panes)
              ∧ length panes = Z.to_nat n
              ∧ Forall (λ g,
                          plane_height g = cg_innerHeight cg
                          ∧ IZR n * plane_width g
                            + (IZR n - 1) * width (wc_profile config)
                            = cg_innerWidth cg) panes)
  ∧ (∀ bars, cg_muntinGeometries cg = Some bars →
       mc_enabled (wc_muntins config) = true
       ∧ (mc_pattern (wc_muntins config) = "grid"
          ∨ mc_pattern (wc_muntins config) = "cross" ∧ length bars = 2%nat))
  ∧ (mc_enabled (wc_muntins config) = true →
     mc_pattern (wc_muntins config) = "grid"
     ∨ mc_pattern (wc_muntins config) = "cross" →
     is_Some (cg_muntinGeometries cg)).
Proof.
  intros Hw Hh cg n.
  assert (cg_innerWidth cg
          = wc_width config - width (wc_profile config) * 2) as Hiw.
  { unfold cg, useWindowGeometry, calculateInnerWidth. simpl.
    apply Rmax_right. lra. }
  assert (cg_innerHeight cg
          = wc_height config - width (wc_profile config) * 2) as Hih.
  { unfold cg, useWindowGeometry, calculateInnerHeight. simpl.
    apply Rmax_right. lra. }
  rewrite Hiw, Hih. unfold n, cg, useWindowGeometry.
  cbn [cg_glassGeometries cg_muntinGeometries cg_paneCount].
  split; [|split; [|split]].
  - intros ->. eexists. split; [reflexivity|]. by split.
  - intros Hn. unfold buildGlassGeometry.
    destruct (Z.eqb_spec (getGlassPaneCount (wc_type config)) 1); [done|].
    eexists. split; [reflexivity|].
    split; [by rewrite length_fmap, length_seq|].
    apply Forall_fmap, Forall_forall. intros i _. simpl.
    split; [done|].
    assert (IZR (getGlassPaneCount (wc_type config)) ≠ 0) as Hnz.
    { unfold getGlassPaneCount.
      repeat destruct (String.eqb _ _); apply not_0_IZR; lia. }
    field. done.
  - intros bars. destruct (mc_enabled (wc_muntins config)); [|done].
    simpl. destruct (String.eqb_spec (mc_pattern (wc_muntins config)) "grid").
    + intros _. split; [done|by left].
    + destruct (String.eqb_spec (mc_pattern (wc_muntins config)) "cross");
        [|done].
      intros [= <-]. split; [done|]. by right.
  - intros -> Hp. simpl.
    destruct (String.eqb_spec (mc_pattern (wc_muntins config)) "grid");
      [by eexists|].
    destruct (String.eqb_spec (mc_pattern (wc_muntins config)) "cross");
      [by eexists|]. by destruct Hp.
Qed.

Lemma computed_geometry_consistent_witness :
  ∃ g, cg_glassGeometries (useWindowGeometry DEFAULT_WINDOW_CONFIG)
       = Some (OnePane g)
       ∧ plane_width g = cg_innerWidth (useWindowGeometry DEFAULT_WINDOW_CONFIG).
Proof.
  destruct (computed_geometry_consistent DEFAULT_WINDOW_CONFIG)
    as [H1 _]; [simpl; lra|simpl; lra|].
  destruct H1 as (g & Hg & Hw & _); [reflexivity|].
  by exists g.
Defined.

End ComputedFacts.
